(** * rcswitch: codeword encoders, waveform compiler, transmitter, controller

    A shallow embedding of [rcswitch.go] (package [rcswitch]) and the
    properties of its encoder, expander, compiler and switch controller.

    Go values are represented as follows.
    - [string]: a Go string is a read-only sequence of bytes, which is what
      Rocq's [string] (a list of 8-bit [ascii]) is.  [len] counts bytes, a
      [range] loop walks the UTF-8 decoded runes ([runes] below).
    - [int], [uint], [uint64], [time.Duration]: [Z]; the places where the
      source can wrap around ([uint(i) - 1], [Duration] products) have the
      reduction written out.
    - [map[string]bool]: [gmap string bool]; a missing key reads as [false].
    - [gpio.PinIO]: the pin is an external device; what the program does to it
      is recorded as the list of [event]s a call emits. *)

From Stdlib Require Import ZArith String Ascii List Bool Lia.
From stdpp Require Import base option list strings gmap.

Local Open Scope string_scope.
Local Open Scope Z_scope.

(** ** Go strings *)

Definition byteZ (c : ascii) : Z := Z.of_N (N_of_ascii c).

(** [len(s)]: the number of bytes. *)
Definition len (s : string) : Z := Z.of_nat (String.length s).

Definition between (lo c hi : Z) : bool := (lo <=? c) && (c <=? hi).

(** Continuation byte of a UTF-8 sequence. *)
Definition cont (c : Z) : bool := between 0x80 c 0xBF.

(** The bits a continuation byte carries. *)
Definition lo6 (c : Z) : Z := Z.land c 0x3F.

Definition RuneError : Z := 0xFFFD.

(** Lead byte [c0] and second byte [c1] open a well-formed sequence of 2, 3
    or 4 bytes (the accept ranges of Go's [unicode/utf8]). *)
Definition lead2 (c0 c1 : Z) : bool := between 0xC2 c0 0xDF && cont c1.

Definition lead3 (c0 c1 : Z) : bool :=
  (c0 =? 0xE0) && between 0xA0 c1 0xBF
  || (between 0xE1 c0 0xEC || between 0xEE c0 0xEF) && cont c1
  || (c0 =? 0xED) && between 0x80 c1 0x9F.

Definition lead4 (c0 c1 : Z) : bool :=
  (c0 =? 0xF0) && between 0x90 c1 0xBF
  || between 0xF1 c0 0xF3 && cont c1
  || (c0 =? 0xF4) && between 0x80 c1 0x8F.

(** [for _, r := range s]: the runes a range loop over the string [s] yields.
    A byte below 0x80 is a rune of its own; a well-formed multi-byte sequence
    is one rune; anything else yields [RuneError] and advances one byte. *)
Fixpoint runes (s : string) : list Z :=
  match s with
  | EmptyString => []
  | String b0 t1 =>
    let c0 := byteZ b0 in
    if c0 <? 0x80 then c0 :: runes t1
    else
      match t1 with
      | EmptyString => [RuneError]
      | String b1 t2 =>
        let c1 := byteZ b1 in
        if lead2 c0 c1 then
          Z.lor (Z.shiftl (Z.land c0 0x1F) 6) (lo6 c1) :: runes t2
        else
          match t2 with
          | EmptyString => RuneError :: runes t1
          | String b2 t3 =>
            let c2 := byteZ b2 in
            if lead3 c0 c1 && cont c2 then
              Z.lor (Z.shiftl (Z.land c0 0x0F) 12)
                    (Z.lor (Z.shiftl (lo6 c1) 6) (lo6 c2)) :: runes t3
            else
              match t3 with
              | EmptyString => RuneError :: runes t1
              | String b3 t4 =>
                let c3 := byteZ b3 in
                if lead4 c0 c1 && cont c2 && cont c3 then
                  Z.lor (Z.shiftl (Z.land c0 0x07) 18)
                        (Z.lor (Z.shiftl (lo6 c1) 12)
                               (Z.lor (Z.shiftl (lo6 c2) 6) (lo6 c3)))
                  :: runes t4
                else RuneError :: runes t1
              end
          end
      end
  end.

(** Rune literals of the source. *)
Definition r0 : Z := 48.   (* '0' *)
Definition r1 : Z := 49.   (* '1' *)
Definition rF : Z := 70.   (* 'F' *)

(** Every byte is below 0x80: each byte is a character of its own. *)
Fixpoint isASCII (s : string) : bool :=
  match s with
  | EmptyString => true
  | String c t => (byteZ c <? 0x80) && isASCII t
  end.

(** [strings.ToLower] on the one-byte strings that reach it in
    [getCodeWordD]: 'A'..'Z' become 'a'..'z', other bytes below 0x80 are
    kept.  (A lone byte from 0x80 up is not valid UTF-8; Go replaces it, and
    either way the result is none of "a".."d".) *)
Definition lowerByte (c : ascii) : ascii :=
  if between 65 (byteZ c) 90 then ascii_of_N (N_of_ascii c + 32) else c.

Fixpoint ToLower (s : string) : string :=
  match s with
  | EmptyString => EmptyString
  | String c t => String (lowerByte c) (ToLower t)
  end.

(** ** Errors *)

Inductive numErr := ErrSyntax | ErrRange.

Inductive error :=
| errorString (msg : string)                      (* errors.New *)
| Errorf (format : string) (args : list Z)        (* fmt.Errorf *)
| NumError (func num : string) (err : numErr)     (* *strconv.NumError *)
| runtimePanic (msg : string).                    (* index out of range *)

(** ** strconv *)

(** The parts of Go's [strconv] the encoders call. *)
Module strconv.

(** Width of [int] and [uint]. *)
Definition IntSize : Z := 64.

Definition maxUint64 : Z := 2 ^ 64 - 1.

(** [lower(c)] of strconv: [c | ('x' - 'X')]. *)
Definition lower (c : Z) : Z := Z.lor c 32.

(** Value of a digit character, for an explicit base (no underscores). *)
Definition digitVal (c : Z) : option Z :=
  if between 48 c 57 then Some (c - 48)
  else if between 97 (lower c) 122 then Some (lower c - 97 + 10)
  else None.

(** The digit loop of [strconv.ParseUint]: [n] is the value so far; the
    result is the value and the kind of error, if any. *)
Fixpoint parseDigits (base cutoff maxVal : Z) (s : string) (n : Z)
  : Z * option numErr :=
  match s with
  | EmptyString => (n, None)
  | String c t =>
    match digitVal (byteZ c) with
    | None => (0, Some ErrSyntax)
    | Some d =>
      if base <=? d then (0, Some ErrSyntax)
      else if cutoff <=? n then (maxVal, Some ErrRange)
      else
        let n := n * base in
        let n1 := (n + d) mod 2 ^ 64 in
        if (n1 <? n) || (maxVal <? n1) then (maxVal, Some ErrRange)
        else parseDigits base cutoff maxVal t n1
    end
  end.

(** [strconv.ParseUint(s, base, bitSize)] for an explicit base 2..36. *)
Definition ParseUintK (s : string) (base bitSize : Z) : Z * option numErr :=
  if (s =? "")%string then (0, Some ErrSyntax)
  else
    let bitSize := if bitSize =? 0 then IntSize else bitSize in
    parseDigits base (maxUint64 / base + 1) (2 ^ bitSize - 1) s 0.

Definition ParseUint (s : string) (base bitSize : Z) : Z * option error :=
  let '(n, e) := ParseUintK s base bitSize in
  (n, NumError "ParseUint" s <$> e).

(** [strconv.ParseInt(s, base, bitSize)], with the name of the calling
    function for the error. *)
Definition ParseIntFn (fn s : string) (base bitSize : Z) : Z * option error :=
  match s with
  | EmptyString => (0, Some (NumError fn s ErrSyntax))
  | String c t =>
    let neg := byteZ c =? 45 in
    let digits := if (byteZ c =? 43) || neg then t else s in
    match ParseUintK digits base bitSize with
    | (_, Some ErrSyntax) => (0, Some (NumError fn s ErrSyntax))
    | (un, _) =>
      let bitSize := if bitSize =? 0 then IntSize else bitSize in
      let cutoff := 2 ^ (bitSize - 1) in
      if negb neg && (cutoff <=? un) then
        (cutoff - 1, Some (NumError fn s ErrRange))
      else if neg && (cutoff <? un) then
        (- cutoff, Some (NumError fn s ErrRange))
      else (if neg then - un else un, None)
    end
  end.

(** [strconv.Atoi(s)]: [ParseInt(s, 10, 0)] converted to [int]; its fast
    path for short strings computes the same result. *)
Definition Atoi (s : string) : Z * option error := ParseIntFn "Atoi" s 10 0.

End strconv.

(** ** Data model *)

Record waveform := mkWaveform {
  high : Z;   (* number of high pulses *)
  low : Z     (* followed by number of low pulses *)
}.

Record protocol := mkProtocol {
  pulseLen : Z;
  syncBit : waveform;
  zeroBit : waveform;
  oneBit : waveform;
  inverted : bool
}.

Definition protocols : list protocol := [
  (* protocol 1 *)
  mkProtocol 350 (mkWaveform 1 31) (mkWaveform 1 3) (mkWaveform 3 1) false;
  (* protocol 2 *)
  mkProtocol 650 (mkWaveform 1 10) (mkWaveform 1 2) (mkWaveform 2 1) false;
  (* protocol 3 *)
  mkProtocol 100 (mkWaveform 30 71) (mkWaveform 4 11) (mkWaveform 9 6) false;
  (* protocol 4 *)
  mkProtocol 380 (mkWaveform 1 6) (mkWaveform 1 3) (mkWaveform 3 1) false;
  (* protocol 5 *)
  mkProtocol 500 (mkWaveform 6 14) (mkWaveform 1 2) (mkWaveform 2 1) false;
  (* protocol 6 (HT6P20B) *)
  mkProtocol 450 (mkWaveform 23 1) (mkWaveform 1 2) (mkWaveform 2 1) true
].

(** The zero value of [protocol]. *)
Definition zeroProtocol : protocol :=
  mkProtocol 0 (mkWaveform 0 0) (mkWaveform 0 0) (mkWaveform 0 0) false.

(** A function result [(T, error)]. *)
Inductive result (A : Type) :=
| Ok (a : A)
| Err (e : error).
Arguments Ok {A} a.
Arguments Err {A} e.

(** ** Codeword encoders *)

Definition getCodeWordA (group device : string) (status : bool) : result string :=
  if negb (len group =? 5) then
    Err (errorString "Group has to have a length of 5 encoded as binary (e.g., 11011)")
  else if negb (len device =? 5) then
    Err (errorString "Device has to have a length of 5 encoded as binary (e.g., 10000)")
  else
    let codeword :=
      fold_left (fun codeword b =>
                   if b =? r0 then codeword +:+ "F" else codeword +:+ "0")
                (runes (group +:+ device)) "" in
    let codeword := if status then codeword +:+ "0F" else codeword +:+ "F0" in
    Ok codeword.

(** The block [for i := 1; i <= 4; i++] of [getCodeWordB]. *)
Definition oneHot (x : Z) (codeword : string) : string :=
  fold_left (fun codeword i =>
               if x =? i then codeword +:+ "0" else codeword +:+ "F")
            [1; 2; 3; 4] codeword.

Definition getCodeWordB (group device : Z) (status : bool) : result string :=
  if (group <? 1) || (4 <? group) || (device <? 1) || (4 <? device) then
    Err (errorString "Group and device have to be within the range of 1 to 4")
  else
    let codeword := oneHot group "" in
    let codeword := oneHot device codeword in
    let codeword := codeword +:+ "FFF" in
    let codeword := if status then codeword +:+ "F" else codeword +:+ "0" in
    Ok codeword.

(** The closure [conf] of [getCodeWordC].  [uint(i) - 1] is computed modulo
    the width of [uint]; [iu&0x2 == 1] parses as [(iu & 0x2) == 1]. *)
Definition conf (i : Z) : string :=
  let s := "" in
  let iu := (i mod 2 ^ strconv.IntSize - 1) mod 2 ^ strconv.IntSize in
  let s := if Z.land iu 0x1 =? 1 then s +:+ "F" else s +:+ "0" in
  let s := if Z.land iu 0x2 =? 1 then s +:+ "F" else s +:+ "0" in
  s.

(** The family loop of [getCodeWordC]: four rounds on [(codeword, f)]. *)
Definition familyBits (f : Z) (codeword : string) : string * Z :=
  fold_left (fun '(codeword, f) (_ : Z) =>
               (if Z.land f 0x1 =? 0x1 then codeword +:+ "F" else codeword +:+ "0",
                Z.shiftr f 1))
            [0; 1; 2; 3] (codeword, f).

Definition getCodeWordC (family group device : string) (status : bool)
  : result string :=
  if negb (len family =? 1) then
    Err (errorString "Family has to be a single character")
  else
    match strconv.ParseUint family 16 8 with
    | (_, Some err) => Err err
    | (f, None) =>
      match strconv.Atoi group with
      | (_, Some err) => Err err
      | (g, None) =>
        if (g <? 1) || (4 <? g) then
          Err (errorString "Group has to be between 1 and 4")
        else
          match strconv.Atoi device with
          | (_, Some err) => Err err
          | (d, None) =>
            if (d <? 1) || (4 <? d) then
              Err (errorString "Device has to be between 1 and 4")
            else
              let codeword := fst (familyBits f "") in
              let codeword := codeword +:+ conf d in
              let codeword := codeword +:+ conf g in
              let codeword := codeword +:+ "0FF" in
              let codeword :=
                if status then codeword +:+ "F" else codeword +:+ "0" in
              Ok codeword
          end
      end
    end.

Definition getCodeWordD (group : string) (device : Z) (status : bool)
  : result string :=
  if negb (len group =? 1) then
    Err (errorString "Group has to be a single character")
  else
    let codeword := "" in
    let lg := ToLower group in
    match
      (if (lg =? "a")%string then Some (codeword +:+ "1FFF")
       else if (lg =? "b")%string then Some (codeword +:+ "F1FF")
       else if (lg =? "c")%string then Some (codeword +:+ "FF1F")
       else if (lg =? "d")%string then Some (codeword +:+ "FFF1")
       else None)
    with
    | None => Err (errorString "Group has to be in a-d or A-D")
    | Some codeword =>
      match
        (if device =? 1 then Some (codeword +:+ "1FF")
         else if device =? 2 then Some (codeword +:+ "F1F")
         else if device =? 3 then Some (codeword +:+ "FF1")
         else None)
      with
      | None => Err (errorString "Group has to be in the range of 1..3")
      | Some codeword =>
        let codeword := codeword +:+ "000" in
        let codeword := if status then codeword +:+ "10" else codeword +:+ "01" in
        Ok codeword
      end
    end.

(** The dispatch.  As in the source, the branch taken when
    [strconv.Atoi(group)] FAILS calls the Type B encoder (with the [g] that
    [strconv.Atoi] returned), and the branch taken when it succeeds calls the
    Type D encoder. *)
Definition getCodeWord (family group device : string) (status : bool)
  : result string :=
  if negb (family =? "")%string then getCodeWordC family group device status
  else if (1 <? len group) && (1 <? len device) then
    getCodeWordA group device status
  else if (len group =? 1) && (len device =? 1) then
    match strconv.Atoi device with
    | (_, Some _) =>
      Err (errorString "Protocols B/D have a device string that can be converted to an integer")
    | (d, None) =>
      match strconv.Atoi group with
      | (g, Some _) => getCodeWordB g d status
      | (_, None) => getCodeWordD group d status
      end
    end
  else Err (errorString "family, group, device combination not supported").

(** ** Expander and compiler *)

Definition triStateToBinary (tristate : string) : string :=
  fold_left (fun binary c =>
               if c =? r0 then binary +:+ "00"
               else if c =? r1 then binary +:+ "11"
               else if c =? rF then binary +:+ "01"
               else binary)
            (runes tristate) "".

Definition binaryToWaveForm (binary : string) (prot : protocol) : list waveform :=
  let ws := [] in
  let ws :=
    fold_left (fun ws b =>
                 if b =? r1 then (ws ++ [oneBit prot])%list
                 else (ws ++ [zeroBit prot])%list)
              (runes binary) ws in
  (ws ++ [syncBit prot])%list.

(** ** Transmitter *)

(** [gpio.Level]. *)
Inductive Level := Low | High.

(** [gpio.PinIO]: a configured output pin, as the caller has to supply;
    identified by its number (as [gpioreg.ByNumber] does). *)
Inductive PinIO := ByNumber (n : Z).

(** What a call does to the outside: [pin.Out(l)] and [time.Sleep(d)].
    The error [pin.Out] returns is dropped by the source. *)
Inductive event :=
| Out (pin : PinIO) (l : Level)
| Sleep (d : Z).

(** [time.Duration] is an [int64] count of nanoseconds. *)
Definition wrap64 (z : Z) : Z := (z + 2 ^ 63) mod 2 ^ 64 - 2 ^ 63.
Definition Microsecond : Z := 1000.

(** The events of one round, [for _, w := range *ws]. *)
Definition pulses (ws : list waveform) (d : Z) (f s : Level) (pin : PinIO)
  : list event :=
  flat_map (fun w => [Out pin f; Sleep (wrap64 (high w * d));
                      Out pin s; Sleep (wrap64 (low w * d))]) ws.

(** [for i := 0; i < nrRepeat; i++]: [nrRepeat] rounds, none if
    [nrRepeat <= 0]. *)
Definition transmit (ws : list waveform) (prot : protocol) (nrRepeat : Z)
           (pin : PinIO) : list event :=
  let d := wrap64 (pulseLen prot * Microsecond) in
  let '(f, s) := if inverted prot then (Low, High) else (High, Low) in
  concat (repeat (pulses ws d f s pin) (Z.to_nat nrRepeat)).

(** ** Switch controller *)

(** The [RCSwitch] object ([s.pin], [s.protocol], [s.nrRepeat], [s.isOn]);
    the mutex serialises callers and has no state of its own here. *)
Record RCSwitch := mkRCSwitch {
  s_pin : PinIO;
  s_protocol : protocol;
  s_nrRepeat : Z;
  s_isOn : gmap string bool
}.

Definition SetPin (s : RCSwitch) (pin : PinIO) : RCSwitch :=
  mkRCSwitch pin (s_protocol s) (s_nrRepeat s) (s_isOn s).

Definition SetRepeat (s : RCSwitch) (nrRepeat : Z) : RCSwitch * option error :=
  if nrRepeat <=? 0 then
    (s, Some (errorString "Repeat has to be a positive number"))
  else
    (mkRCSwitch (s_pin s) (s_protocol s) nrRepeat (s_isOn s), None).

Definition SetProtocol (s : RCSwitch) (protocol : Z) : RCSwitch * option error :=
  if (protocol <=? 0) || (Z.of_nat (length protocols) <? protocol) then
    (s, Some (Errorf "Protocol %d is not supported, supported are 1 to %d"
                     [protocol; Z.of_nat (length protocols)]))
  else
    match protocols !! Z.to_nat (protocol - 1) with
    | Some p => (mkRCSwitch (s_pin s) p (s_nrRepeat s) (s_isOn s), None)
    | None => (s, Some (runtimePanic "index out of range"))
    end.

(** [NewRCSwitch]: the literal leaves [pin] and [protocol] at their zero
    values; [SetPin] stores [pin] (so the field starts as [pin] here, there
    being no nil pin in [PinIO]); the error of [SetProtocol(1)] is dropped. *)
Definition NewRCSwitch (pin : PinIO) : RCSwitch :=
  let s := mkRCSwitch pin zeroProtocol 10 ∅ in
  let s := SetPin s pin in
  fst (SetProtocol s 1).

Definition send (s : RCSwitch) (binary : string) : list event :=
  let ws := binaryToWaveForm binary (s_protocol s) in
  transmit ws (s_protocol s) (s_nrRepeat s) (s_pin s).

Definition sendTriState (s : RCSwitch) (tristate : string) : list event :=
  send s (triStateToBinary tristate).

(** [s.isOn[key] = v]. *)
Definition setIsOn (s : RCSwitch) (key : string) (v : bool) : RCSwitch :=
  mkRCSwitch (s_pin s) (s_protocol s) (s_nrRepeat s) (<[key := v]> (s_isOn s)).

(** A call returns the object after the call, the events it emitted, and
    its [error] result. *)
Definition SwitchOn (s : RCSwitch) (family group device : string)
  : RCSwitch * list event * option error :=
  match getCodeWord family group device true with
  | Err err => (s, [], Some err)
  | Ok code =>
    let out := sendTriState s code in
    (setIsOn s (group +:+ device) true, out, None)
  end.

Definition SwitchOff (s : RCSwitch) (family group device : string)
  : RCSwitch * list event * option error :=
  match getCodeWord family group device false with
  | Err err => (s, [], Some err)
  | Ok code =>
    let out := sendTriState s code in
    (setIsOn s (group +:+ device) false, out, None)
  end.

(** [s.isOn[group+device]]: a missing key reads as the zero value. *)
Definition IsOn (s : RCSwitch) (group device : string) : bool :=
  default false (s_isOn s !! (group +:+ device)).

(** Number of [pin.Out] calls among the events. *)
Definition pinWrites (evs : list event) : nat :=
  length (List.filter
            (fun e => match e with Out _ _ => true | Sleep _ => false end) evs).

(** Character classes used in the statements. *)

(** Every byte is '0' or '1'. *)
Fixpoint isBinary (s : string) : bool :=
  match s with
  | EmptyString => true
  | String c t => ((byteZ c =? r0) || (byteZ c =? r1)) && isBinary t
  end.

(** Every byte is '0', '1' or 'F'. *)
Fixpoint isTriState (s : string) : bool :=
  match s with
  | EmptyString => true
  | String c t =>
    ((byteZ c =? r0) || (byteZ c =? r1) || (byteZ c =? rF)) && isTriState t
  end.

(** The expander in the words of its description: '0' gives "00", '1'
    gives "11", 'F' gives "01", any other character is skipped. *)
Fixpoint expand_spec (codeword : string) : string :=
  match codeword with
  | EmptyString => ""
  | String c t =>
    (if byteZ c =? r0 then "00"
     else if byteZ c =? r1 then "11"
     else if byteZ c =? rF then "01"
     else "") +:+ expand_spec t
  end.

(** The compiler in the words of its description: one waveform per bit,
    '1' gives [oneBit], anything else [zeroBit], then one [syncBit]. *)
Definition compile_spec (binary : string) (prot : protocol) : list waveform :=
  (map (fun c => if byteZ c =? r1 then oneBit prot else zeroBit prot)
       (list_ascii_of_string binary) ++ [syncBit prot])%list.

(** Auxiliary definitions of the statements. *)

(** The symbols the loop of [getCodeWordA] appends for a list of runes. *)
Definition symsA (l : list Z) : string :=
  fold_right (fun b rest => (if b =? r0 then "F" else "0") +:+ rest) "" l.

(** A group of 5 bytes that holds a two-byte character (4 characters), and
    a group of 5 characters, one of them two bytes long (6 bytes). *)
Definition group_5bytes : string :=
  String (ascii_of_N 0xC3) (String (ascii_of_N 0xA9) "000").

Definition group_5chars : string :=
  String (ascii_of_N 0xC3) (String (ascii_of_N 0xA9) "0000").

(** What the loop of [triStateToBinary] appends for one rune. *)
Definition expandRune (c : Z) : string :=
  if c =? r0 then "00" else if c =? r1 then "11"
  else if c =? rF then "01" else "".

(** ** Auxiliary definitions of the further properties *)

(** The [error] of a result, [None] for [nil]. *)
Definition errorOf {A : Type} (r : result A) : option error :=
  match r with
  | Ok _ => None
  | Err e => Some e
  end.

Definition isOk {A : Type} (r : result A) : bool :=
  match r with
  | Ok _ => true
  | Err _ => false
  end.

(** Which characters of a string are '0'. *)
Fixpoint zeroPattern (s : string) : list bool :=
  match s with
  | EmptyString => []
  | String c t => (byteZ c =? r0) :: zeroPattern t
  end.

(** No byte is '1'. *)
Fixpoint noOne (s : string) : bool :=
  match s with
  | EmptyString => true
  | String c t => negb (byteZ c =? r1) && noOne t
  end.

(** The symbols of a zero pattern: 'F' for a '0', '0' for anything else. *)
Definition patSyms (p : list bool) : string :=
  fold_right (fun (z : bool) rest => (if z then "F" else "0") +:+ rest) "" p.

(** The blocks of a Type D codeword, by lower-case group letter and by
    device number. *)
Definition groupBlock (lg : string) : string :=
  if (lg =? "a")%string then "1FFF"
  else if (lg =? "b")%string then "F1FF"
  else if (lg =? "c")%string then "FF1F"
  else "FFF1".

Definition deviceBlock (device : Z) : string :=
  if device =? 1 then "1FF" else if device =? 2 then "F1F" else "FF1".

(** The level of the last [pin.Out] among the events, if any. *)
Fixpoint lastWrite (evs : list event) : option Level :=
  match evs with
  | [] => None
  | e :: t =>
    match lastWrite t with
    | Some l => Some l
    | None => match e with Out _ l => Some l | Sleep _ => None end
    end
  end.

(** Every [pin.Out] among the events is on [pin]. *)
Definition onlyPin (pin : PinIO) (evs : list event) : Prop :=
  Forall (fun e => match e with Out p _ => p = pin | Sleep _ => True end) evs.

(** The time slept, in nanoseconds. *)
Definition sleepTotal (evs : list event) : Z :=
  fold_right (fun e acc => match e with Sleep d => d + acc | Out _ _ => acc end)
             0 evs.

(** The zero and the one waveform of a protocol last equally long, and no
    product of its durations leaves the range of [time.Duration]. *)
Definition steady (p : protocol) : bool :=
  let d := pulseLen p * Microsecond in
  (wrap64 d =? d)
  && forallb (fun w => (wrap64 (high w * d) =? high w * d)
                       && (wrap64 (low w * d) =? low w * d))
             [syncBit p; zeroBit p; oneBit p]
  && (high (zeroBit p) + low (zeroBit p) =? high (oneBit p) + low (oneBit p)).

(** A sequence of commands on the controller. *)
Inductive cmd :=
| On (family group device : string)
| Off (family group device : string).

Definition exec (s : RCSwitch) (c : cmd) : RCSwitch :=
  match c with
  | On family group device => fst (fst (SwitchOn s family group device))
  | Off family group device => fst (fst (SwitchOff s family group device))
  end.

Definition run (s : RCSwitch) (cmds : list cmd) : RCSwitch :=
  fold_left exec cmds s.

(** What a command records for [key]: the status it commands if it is
    accepted and its [group+device] is [key], else what was there. *)
Definition record (key : string) (acc : bool) (c : cmd) : bool :=
  match c with
  | On family group device =>
    if isOk (getCodeWord family group device true)
       && (group +:+ device =? key)%string then true else acc
  | Off family group device =>
    if isOk (getCodeWord family group device false)
       && (group +:+ device =? key)%string then false else acc
  end.

(** The objects a program can hold: made by [NewRCSwitch], then changed by
    the exported methods. *)
Inductive reachable : RCSwitch -> Prop :=
| reach_new pin : reachable (NewRCSwitch pin)
| reach_SetPin s pin : reachable s -> reachable (SetPin s pin)
| reach_SetRepeat s n : reachable s -> reachable (fst (SetRepeat s n))
| reach_SetProtocol s n : reachable s -> reachable (fst (SetProtocol s n))
| reach_SwitchOn s f g d :
    reachable s -> reachable (fst (fst (SwitchOn s f g d)))
| reach_SwitchOff s f g d :
    reachable s -> reachable (fst (fst (SwitchOff s f g d))).

(** ** The test program *)

(** How [main] ends: [os.Exit(code)] (0 when it returns normally) or a
    run-time panic. *)
Inductive ending :=
| Exit (code : Z)
| Panic.

(** [main], after [flag.Parse] has returned: [args] is [flag.Args()],
    [hostInit] the error of [host.Init()], [pin] what
    [gpioreg.ByNumber(rcPin)] returns ([None] for nil).  The usage text and
    [log.Fatal] exit with code 1.  With a nil pin the first [pin.Out] of
    the transmission panics ([NewRCSwitch] sets 10 rounds and there is
    always the sync waveform). *)
Definition main (args : list string) (hostInit : option error)
           (pin : option PinIO) : ending * list event :=
  if negb (Z.of_nat (length args) =? 3) then (Exit 1, [])
  else
    let status := (nth 2 args "" =? "1")%string in
    match hostInit with
    | Some _ => (Exit 1, [])
    | None =>
      match pin with
      | Some pin =>
        let rc := NewRCSwitch pin in
        let '(_, out, err) :=
          if status then SwitchOn rc "" (nth 0 args "") (nth 1 args "")
          else SwitchOff rc "" (nth 0 args "") (nth 1 args "") in
        match err with
        | Some _ => (Exit 1, out)
        | None => (Exit 0, out)
        end
      | None =>
        match getCodeWord "" (nth 0 args "") (nth 1 args "") status with
        | Err _ => (Exit 1, [])
        | Ok _ => (Panic, [])
        end
      end
    end.

(** [err == nil]. *)
Definition isNil (err : option error) : bool :=
  match err with
  | None => true
  | Some _ => false
  end.

(** * Properties *)

(** ** Strings and range loops *)

Lemma append_cons (x : ascii) (a b : string) :
  String x a +:+ b = String x (a +:+ b).
Proof. reflexivity. Qed.

Lemma append_nil_l (b : string) : "" +:+ b = b.
Proof. reflexivity. Qed.

Lemma append_assoc (a b c : string) : (a +:+ b) +:+ c = a +:+ (b +:+ c).
Proof.
  induction a as [|x a IH]; [reflexivity|].
  rewrite !append_cons. now rewrite IH.
Qed.

Lemma append_nil_r (a : string) : a +:+ "" = a.
Proof.
  induction a as [|x a IH]; [reflexivity|].
  rewrite append_cons. now rewrite IH.
Qed.

Lemma len_cons (x : ascii) (a : string) : len (String x a) = 1 + len a.
Proof. unfold len. cbn [String.length]. lia. Qed.

Lemma len_append (a b : string) : len (a +:+ b) = len a + len b.
Proof.
  induction a as [|x a IH]; [reflexivity|].
  rewrite append_cons, !len_cons. lia.
Qed.

Lemma len_nonneg (a : string) : 0 <= len a.
Proof. unfold len. lia. Qed.

Lemma isASCII_append (a b : string) :
  isASCII (a +:+ b) = isASCII a && isASCII b.
Proof.
  induction a as [|x a IH]; [reflexivity|].
  rewrite append_cons. cbn [isASCII]. rewrite IH. now rewrite andb_assoc.
Qed.

(** On a string of single-byte characters a range loop yields the bytes. *)
Lemma runes_ascii (s : string) :
  isASCII s = true -> runes s = map byteZ (list_ascii_of_string s).
Proof.
  induction s as [|c s IH]; [reflexivity|].
  cbn [isASCII]. intros [Hc Hs]%andb_true_iff.
  cbn [runes list_ascii_of_string map]. rewrite Hc. f_equal. auto.
Qed.

Lemma length_list_ascii (s : string) :
  length (list_ascii_of_string s) = String.length s.
Proof. induction s; simpl; congruence. Qed.

Lemma runes_ascii_length (s : string) :
  isASCII s = true -> Z.of_nat (length (runes s)) = len s.
Proof.
  intros H. rewrite (runes_ascii s H), length_map, length_list_ascii.
  reflexivity.
Qed.

Lemma isBinary_isASCII (s : string) : isBinary s = true -> isASCII s = true.
Proof.
  induction s as [|c s IH]; [reflexivity|]. cbn [isBinary isASCII].
  intros [Hc Hs]%andb_true_iff. rewrite (IH Hs), andb_true_r.
  unfold r0, r1 in Hc. lia.
Qed.

Lemma isTriState_isASCII (s : string) : isTriState s = true -> isASCII s = true.
Proof.
  induction s as [|c s IH]; [reflexivity|]. cbn [isTriState isASCII].
  intros [Hc Hs]%andb_true_iff. rewrite (IH Hs), andb_true_r.
  unfold r0, r1, rF in Hc. lia.
Qed.

(** A loop [acc += f(r)] over a list appends the pieces in order. *)
Lemma fold_append (f : Z -> string) (l : list Z) (acc : string) :
  fold_left (fun acc r => acc +:+ f r) l acc
  = acc +:+ fold_right (fun r rest => f r +:+ rest) "" l.
Proof.
  revert acc. induction l as [|r l IH]; intros acc; cbn [fold_left fold_right].
  - now rewrite append_nil_r.
  - now rewrite IH, append_assoc.
Qed.

(** ** Type A encoder *)

Lemma typeA_loop (l : list Z) (acc : string) :
  fold_left (fun codeword b =>
               if b =? r0 then codeword +:+ "F" else codeword +:+ "0") l acc
  = acc +:+ symsA l.
Proof.
  revert acc. induction l as [|b l IH]; intros acc.
  - cbn [fold_left symsA fold_right]. now rewrite append_nil_r.
  - cbn [fold_left symsA fold_right]. rewrite IH. fold (symsA l).
    destruct (b =? r0); now rewrite append_assoc.
Qed.

Lemma len_symsA (l : list Z) : len (symsA l) = Z.of_nat (length l).
Proof.
  induction l as [|b l IH]; [reflexivity|].
  cbn [symsA fold_right length]. fold (symsA l).
  rewrite len_append, IH, Nat2Z.inj_succ.
  destruct (b =? r0); change (len "F") with 1; change (len "0") with 1; lia.
Qed.

(** With two arguments of 5 bytes each the dispatch reaches the Type A
    encoder, which emits one symbol per rune of [group+device] and then the
    status pair. *)
Lemma getCodeWordA_runes (group device : string) (status : bool) :
  len group = 5 -> len device = 5 ->
  getCodeWord "" group device status = getCodeWordA group device status
  /\ getCodeWordA group device status
     = Ok (symsA (runes (group +:+ device))
           +:+ (if status then "0F" else "F0")).
Proof.
  intros Hg Hd. split.
  - unfold getCodeWord. rewrite Hg, Hd. reflexivity.
  - unfold getCodeWordA. rewrite Hg, Hd. cbn [Z.eqb Pos.eqb negb].
    rewrite typeA_loop, append_nil_l. destruct status; reflexivity.
Qed.

(** C4 (as amended): for every Type A input whose group and device are each
    exactly 5 single-byte (ASCII) characters, the encoder returns a codeword
    of 12 symbols, 10 symbols followed by "0F" when status is on and by "F0"
    when status is off; encoding family "", group "11011", device "10000",
    status on yields exactly "00F000FFFF0F". *)
Theorem getCodeWordA_ascii_shape (group device : string) (status : bool) :
  len group = 5 -> len device = 5 ->
  isASCII group = true -> isASCII device = true ->
  (exists body,
      getCodeWord "" group device status
      = Ok (body +:+ (if status then "0F" else "F0"))
      /\ getCodeWordA group device status
         = Ok (body +:+ (if status then "0F" else "F0"))
      /\ len body = 10
      /\ len (body +:+ (if status then "0F" else "F0")) = 12)
  /\ getCodeWord "" "11011" "10000" true = Ok "00F000FFFF0F".
Proof.
  intros Hg Hd Ag Ad. split; [|reflexivity].
  destruct (getCodeWordA_runes group device status Hg Hd) as [E1 E2].
  exists (symsA (runes (group +:+ device))).
  assert (Hb : len (symsA (runes (group +:+ device))) = 10).
  { rewrite len_symsA, runes_ascii_length, len_append; [lia|].
    now rewrite isASCII_append, Ag, Ad. }
  repeat split.
  - now rewrite E1.
  - exact E2.
  - exact Hb.
  - rewrite len_append, Hb. destruct status; reflexivity.
Qed.

Lemma getCodeWordA_ascii_shape_witness :
  (exists body,
      getCodeWord "" "11011" "10000" false = Ok (body +:+ "F0")
      /\ getCodeWordA "11011" "10000" false = Ok (body +:+ "F0")
      /\ len body = 10
      /\ len (body +:+ "F0") = 12)
  /\ getCodeWord "" "11011" "10000" true = Ok "00F000FFFF0F".
Proof.
  apply (getCodeWordA_ascii_shape "11011" "10000" false); reflexivity.
Defined.

(** C4 (as stated) fails: the length test counts bytes, the loop walks
    characters.  The group [group_5bytes] has 5 bytes and is accepted, the
    loop sees 4 characters in it, and the codeword has 11 symbols.  (Counting
    characters instead, [group_5chars] has 5 of them and is rejected.) *)
Lemma getCodeWordA_multibyte_11_symbols :
  len group_5bytes = 5 /\ len "10000" = 5
  /\ getCodeWord "" group_5bytes "10000" true = Ok "0FFF0FFFF0F"
  /\ getCodeWordA group_5bytes "10000" true = Ok "0FFF0FFFF0F"
  /\ len "0FFF0FFFF0F" = 11
  /\ length (runes group_5chars) = 5%nat
  /\ getCodeWordA group_5chars "10000" true
     = Err (errorString "Group has to have a length of 5 encoded as binary (e.g., 11011)").
Proof. repeat split. Qed.

(** ** Type B and Type D dispatch *)

(** What the dispatch does with one-byte group and device: a group that
    parses as an integer goes to the Type D encoder, one that does not goes
    to the Type B encoder. *)
Lemma getCodeWord_one_byte (group device : string) (status : bool) (d : Z) :
  len group = 1 -> len device = 1 -> strconv.Atoi device = (d, None) ->
  getCodeWord "" group device status
  = match strconv.Atoi group with
    | (g, Some _) => getCodeWordB g d status
    | (_, None) => getCodeWordD group d status
    end.
Proof.
  intros Hg Hd Hp. unfold getCodeWord. rewrite Hg, Hd, Hp. reflexivity.
Qed.

(** Hence no call with one-byte group and device succeeds: a group that
    parses is no letter a-d, and a group that does not parse reaches the
    Type B encoder as 0. *)
Lemma getCodeWord_one_byte_fails (c : ascii) (device : string) (status : bool) :
  len device = 1 ->
  exists e, getCodeWord "" (String c "") device status = Err e.
Proof.
  intros Hd. unfold getCodeWord. change (len (String c "")) with 1. rewrite Hd.
  cbn [String.eqb negb Z.ltb Z.compare andb Z.eqb Pos.eqb].
  destruct (strconv.Atoi device) as [d [e|]]; [eexists; reflexivity|].
  destruct c as [[] [] [] [] [] [] [] []]; eexists; vm_compute; reflexivity.
Qed.

(** C1 (the code departs from it): with family "", group "1" and device "2"
    both parse as integers, yet the dispatch calls the Type D encoder, which
    rejects the group; the Type B encoder would have produced a codeword.
    With the letter group "a" the dispatch calls the Type B encoder with
    group 0, which rejects it; the Type D encoder would have produced a
    codeword. *)
Theorem getCodeWord_BD_swapped :
  getCodeWord "" "1" "2" true = getCodeWordD "1" 2 true
  /\ getCodeWord "" "1" "2" true
     = Err (errorString "Group has to be in a-d or A-D")
  /\ getCodeWordB 1 2 true = Ok "0FFFF0FFFFFF"
  /\ getCodeWord "" "a" "2" true = getCodeWordB 0 2 true
  /\ getCodeWord "" "a" "2" true
     = Err (errorString "Group and device have to be within the range of 1 to 4")
  /\ getCodeWordD "a" 2 true = Ok "1FFFF1F00010".
Proof. repeat split. Qed.

(** ** Type C encoder *)

(** C3 (the code departs from it): the second symbol of [conf] is '0' for
    every argument, because [(iu & 0x2) == 1] never holds; [conf(3)] equals
    [conf(1)] and [conf(4)] equals [conf(2)], so devices 1 and 3 get the
    same codeword. *)
Theorem conf_second_symbol_constant :
  (forall i, conf i = "00" \/ conf i = "F0")
  /\ conf 1 = "00" /\ conf 2 = "F0" /\ conf 3 = "00" /\ conf 4 = "F0"
  /\ getCodeWordC "a" "1" "3" true = Ok "0F0F00000FFF"
  /\ getCodeWordC "a" "1" "1" true = Ok "0F0F00000FFF".
Proof.
  split; [|repeat split].
  intros i. unfold conf.
  set (iu := (i mod 2 ^ strconv.IntSize - 1) mod 2 ^ strconv.IntSize).
  assert (H2 : (Z.land iu 2 =? 1) = false).
  { apply Z.eqb_neq. intros H.
    assert (Hb : Z.testbit (Z.land iu 2) 0 = Z.testbit 1 0) by now rewrite H.
    rewrite Z.land_spec in Hb. cbn in Hb. rewrite andb_false_r in Hb.
    discriminate. }
  rewrite H2. destruct (Z.land iu 1 =? 1); auto.
Qed.

(** ** Expander and compiler *)

Lemma expand_loop (l : list Z) (acc : string) :
  fold_left (fun binary c =>
               if c =? r0 then binary +:+ "00"
               else if c =? r1 then binary +:+ "11"
               else if c =? rF then binary +:+ "01"
               else binary) l acc
  = acc +:+ fold_right (fun c rest => expandRune c +:+ rest) "" l.
Proof.
  rewrite <- fold_append. revert acc.
  induction l as [|c l IH]; intros acc; [reflexivity|].
  cbn [fold_left]. rewrite IH. f_equal. unfold expandRune.
  destruct (c =? r0); [reflexivity|].
  destruct (c =? r1); [reflexivity|].
  destruct (c =? rF); [reflexivity|]. now rewrite append_nil_r.
Qed.

(** On single-byte characters the expander is the table of its description,
    characters outside '0', '1', 'F' being skipped. *)
Lemma triStateToBinary_expand_spec (s : string) :
  isASCII s = true -> triStateToBinary s = expand_spec s.
Proof.
  intros H. unfold triStateToBinary.
  rewrite expand_loop, append_nil_l, (runes_ascii s H). clear H.
  induction s as [|c s IH]; [reflexivity|].
  cbn [list_ascii_of_string map fold_right expand_spec]. now rewrite IH.
Qed.

(** Runes that are not single-byte characters are skipped as well. *)
Lemma triStateToBinary_runes (s : string) :
  triStateToBinary s
  = fold_right (fun c rest => expandRune c +:+ rest) "" (runes s).
Proof. unfold triStateToBinary. now rewrite expand_loop, append_nil_l. Qed.

Lemma expand_spec_isBinary (s : string) : isBinary (expand_spec s) = true.
Proof.
  induction s as [|c s IH]; [reflexivity|]. cbn [expand_spec].
  destruct (byteZ c =? r0); [exact IH|].
  destruct (byteZ c =? r1); [exact IH|].
  destruct (byteZ c =? rF); exact IH.
Qed.

Lemma len_expand_spec (s : string) :
  isTriState s = true -> len (expand_spec s) = 2 * len s.
Proof.
  induction s as [|c s IH]; [reflexivity|]. cbn [isTriState expand_spec].
  intros [Hc Hs]%andb_true_iff. rewrite len_append, len_cons, (IH Hs).
  destruct (byteZ c =? r0); [change (len "00") with 2; lia|].
  destruct (byteZ c =? r1); [change (len "11") with 2; lia|].
  destruct (byteZ c =? rF); [change (len "01") with 2; lia|discriminate].
Qed.

Lemma compile_loop (prot : protocol) (l : list Z) (acc : list waveform) :
  fold_left (fun ws b =>
               if b =? r1 then (ws ++ [oneBit prot])%list
               else (ws ++ [zeroBit prot])%list) l acc
  = (acc ++ map (fun b => if b =? r1 then oneBit prot else zeroBit prot) l)%list.
Proof.
  revert acc. induction l as [|b l IH]; intros acc.
  - cbn [fold_left map]. now rewrite app_nil_r.
  - cbn [fold_left map]. rewrite IH.
    destruct (b =? r1); now rewrite <- app_assoc.
Qed.

(** The compiler emits one waveform per rune and the sync waveform. *)
Lemma binaryToWaveForm_runes (binary : string) (prot : protocol) :
  binaryToWaveForm binary prot
  = (map (fun b => if b =? r1 then oneBit prot else zeroBit prot) (runes binary)
     ++ [syncBit prot])%list.
Proof. unfold binaryToWaveForm. now rewrite compile_loop, app_nil_l. Qed.

Lemma binaryToWaveForm_compile_spec (binary : string) (prot : protocol) :
  isASCII binary = true ->
  binaryToWaveForm binary prot = compile_spec binary prot.
Proof.
  intros H. rewrite binaryToWaveForm_runes, (runes_ascii binary H).
  unfold compile_spec. now rewrite map_map.
Qed.

Lemma length_compile_spec (binary : string) (prot : protocol) :
  Z.of_nat (length (compile_spec binary prot)) = len binary + 1.
Proof.
  unfold compile_spec, len.
  rewrite length_app, length_map, length_list_ascii. cbn [length]. lia.
Qed.

(** C6: for every codeword over the alphabet 0, 1, F the expander maps '0'
    to "00", '1' to "11" and 'F' to "01" (other characters are skipped by
    [expand_spec]), the result has length [2 * len codeword], and compiling
    it under any protocol gives one waveform per bit ('1' gives [oneBit],
    anything else [zeroBit]) followed by one [syncBit]:
    [2 * len codeword + 1] waveforms. *)
Theorem expand_compile_shape (codeword : string) (prot : protocol) :
  isTriState codeword = true ->
  triStateToBinary codeword = expand_spec codeword
  /\ len (triStateToBinary codeword) = 2 * len codeword
  /\ binaryToWaveForm (triStateToBinary codeword) prot
     = compile_spec (triStateToBinary codeword) prot
  /\ Z.of_nat (length (binaryToWaveForm (triStateToBinary codeword) prot))
     = 2 * len codeword + 1.
Proof.
  intros H.
  assert (E : triStateToBinary codeword = expand_spec codeword)
    by (apply triStateToBinary_expand_spec, isTriState_isASCII, H).
  assert (L : len (triStateToBinary codeword) = 2 * len codeword)
    by (rewrite E; apply len_expand_spec, H).
  assert (C : binaryToWaveForm (triStateToBinary codeword) prot
              = compile_spec (triStateToBinary codeword) prot).
  { apply binaryToWaveForm_compile_spec. rewrite E.
    apply isBinary_isASCII, expand_spec_isBinary. }
  repeat split; [exact E | exact L | exact C |].
  rewrite C, length_compile_spec, L. reflexivity.
Qed.

Lemma expand_compile_shape_witness :
  triStateToBinary "0F1" = expand_spec "0F1"
  /\ len (triStateToBinary "0F1") = 2 * len "0F1"
  /\ binaryToWaveForm (triStateToBinary "0F1") zeroProtocol
     = compile_spec (triStateToBinary "0F1") zeroProtocol
  /\ Z.of_nat (length (binaryToWaveForm (triStateToBinary "0F1") zeroProtocol))
     = 2 * len "0F1" + 1.
Proof. apply (expand_compile_shape "0F1" zeroProtocol). reflexivity. Defined.

(** ** Transmitter *)

Lemma pinWrites_app (a b : list event) :
  pinWrites (a ++ b)%list = (pinWrites a + pinWrites b)%nat.
Proof. unfold pinWrites. now rewrite List.filter_app, length_app. Qed.

(** One round writes the pin twice per waveform. *)
Lemma pinWrites_pulses (ws : list waveform) (d : Z) (f s : Level) (pin : PinIO) :
  pinWrites (pulses ws d f s pin) = (2 * length ws)%nat.
Proof.
  induction ws as [|w ws IH]; [reflexivity|].
  unfold pulses in *. cbn [flat_map]. rewrite pinWrites_app, IH.
  cbn [pinWrites List.filter length]. cbn [length]. lia.
Qed.

Lemma pinWrites_rounds (body : list event) (k : nat) :
  pinWrites (concat (repeat body k)) = (k * pinWrites body)%nat.
Proof.
  induction k as [|k IH]; [reflexivity|].
  cbn [repeat concat]. rewrite pinWrites_app, IH. lia.
Qed.

Lemma pinWrites_transmit (ws : list waveform) (prot : protocol) (n : Z)
      (pin : PinIO) :
  pinWrites (transmit ws prot n pin) = (Z.to_nat n * (2 * length ws))%nat.
Proof.
  unfold transmit. destruct (inverted prot);
    now rewrite pinWrites_rounds, pinWrites_pulses.
Qed.

(** Sending a string of single-byte characters with repeat count [n]. *)
Lemma pinWrites_send (s : RCSwitch) (binary : string) :
  isASCII binary = true -> 0 <= s_nrRepeat s ->
  Z.of_nat (pinWrites (send s binary)) = s_nrRepeat s * (2 * len binary + 2).
Proof.
  intros H Hn. unfold send.
  rewrite pinWrites_transmit, (binaryToWaveForm_compile_spec _ _ H).
  pose proof (length_compile_spec binary (s_protocol s)) as L.
  rewrite Nat2Z.inj_mul, Z2Nat.id by exact Hn.
  rewrite Nat2Z.inj_mul, L. change (Z.of_nat 2) with 2. ring.
Qed.

(** C5: [SetRepeat(n)] with [n] positive succeeds and stores [n]; sending a
    binary string then writes the pin exactly [n * (2 * len binary + 2)]
    times; [SetRepeat(3)] succeeds; [SetRepeat(0)] and [SetRepeat(-5)] fail
    with the validation error and leave the object as it was. *)
Theorem SetRepeat_pin_writes (s : RCSwitch) (n : Z) (binary : string) :
  0 < n -> isBinary binary = true ->
  SetRepeat s n
  = (mkRCSwitch (s_pin s) (s_protocol s) n (s_isOn s), None)
  /\ s_nrRepeat (fst (SetRepeat s n)) = n
  /\ Z.of_nat (pinWrites (send (fst (SetRepeat s n)) binary))
     = n * (2 * len binary + 2)
  /\ snd (SetRepeat s 3) = None
  /\ Z.of_nat (pinWrites (send (fst (SetRepeat s 3)) binary))
     = 3 * (2 * len binary + 2)
  /\ SetRepeat s 0
     = (s, Some (errorString "Repeat has to be a positive number"))
  /\ SetRepeat s (-5)
     = (s, Some (errorString "Repeat has to be a positive number")).
Proof.
  intros Hn Hb.
  assert (E : forall m, 0 < m ->
                SetRepeat s m
                = (mkRCSwitch (s_pin s) (s_protocol s) m (s_isOn s), None)).
  { intros m Hm. unfold SetRepeat.
    destruct (m <=? 0) eqn:Hle; [lia | reflexivity]. }
  assert (W : forall m, 0 < m ->
                Z.of_nat (pinWrites (send (fst (SetRepeat s m)) binary))
                = m * (2 * len binary + 2)).
  { intros m Hm. rewrite (E m Hm). cbn [fst].
    rewrite pinWrites_send; cbn [s_nrRepeat]; [reflexivity | | lia].
    apply isBinary_isASCII, Hb. }
  repeat split.
  - apply E, Hn.
  - rewrite (E n Hn). reflexivity.
  - apply W, Hn.
  - apply W. lia.
Qed.

Lemma SetRepeat_pin_writes_witness :
  let s := NewRCSwitch (ByNumber 17) in
  SetRepeat s 3
  = (mkRCSwitch (s_pin s) (s_protocol s) 3 (s_isOn s), None)
  /\ s_nrRepeat (fst (SetRepeat s 3)) = 3
  /\ Z.of_nat (pinWrites (send (fst (SetRepeat s 3)) "0101")) = 3 * (2 * len "0101" + 2)
  /\ snd (SetRepeat s 3) = None
  /\ Z.of_nat (pinWrites (send (fst (SetRepeat s 3)) "0101")) = 3 * (2 * len "0101" + 2)
  /\ SetRepeat s 0
     = (s, Some (errorString "Repeat has to be a positive number"))
  /\ SetRepeat s (-5)
     = (s, Some (errorString "Repeat has to be a positive number")).
Proof.
  intros s.
  apply (SetRepeat_pin_writes s 3 "0101"); [lia | reflexivity].
Defined.

(** ** Configuration *)

(** C7: [SetProtocol(n)] returns its validation error exactly when [n] is
    outside 1..6: for [n] from 1 to 6 it succeeds and selects entry [n-1] of
    the table, for any other [n] it fails; in particular [SetProtocol(0)]
    and [SetProtocol(7)] fail. *)
Theorem SetProtocol_range (s : RCSwitch) (n : Z) :
  (if between 1 n 6 then
     exists p, protocols !! Z.to_nat (n - 1) = Some p
               /\ SetProtocol s n
                  = (mkRCSwitch (s_pin s) p (s_nrRepeat s) (s_isOn s), None)
   else
     SetProtocol s n
     = (s, Some (Errorf "Protocol %d is not supported, supported are 1 to %d"
                        [n; 6])))
  /\ SetProtocol s 0
     = (s, Some (Errorf "Protocol %d is not supported, supported are 1 to %d"
                        [0; 6]))
  /\ SetProtocol s 7
     = (s, Some (Errorf "Protocol %d is not supported, supported are 1 to %d"
                        [7; 6])).
Proof.
  split; [|split; reflexivity].
  unfold between, SetProtocol. change (Z.of_nat (length protocols)) with 6.
  destruct (1 <=? n) eqn:H1; destruct (n <=? 6) eqn:H6; cbn [andb].
  - assert (Hn : n = 1 \/ n = 2 \/ n = 3 \/ n = 4 \/ n = 5 \/ n = 6) by lia.
    destruct Hn as [->|[->|[->|[->|[->| ->]]]]]; eexists; split; reflexivity.
  - destruct (n <=? 0) eqn:H0; destruct (6 <? n) eqn:H7;
      cbn [orb]; try reflexivity; lia.
  - destruct (n <=? 0) eqn:H0; cbn [orb]; [reflexivity | lia].
  - lia.
Qed.

(** C10: when [SetProtocol] or [SetRepeat] returns an error, the object it
    returns is the object it was given: protocol and repeat count (and pin
    and state map) keep their values. *)
Theorem config_error_unchanged (s s' : RCSwitch) (n : Z) (err : error) :
  SetProtocol s n = (s', Some err) \/ SetRepeat s n = (s', Some err) ->
  s' = s
  /\ s_protocol s' = s_protocol s /\ s_nrRepeat s' = s_nrRepeat s.
Proof.
  intros H. assert (E : s' = s); [|now subst].
  destruct H as [H | H].
  - unfold SetProtocol in H.
    destruct ((n <=? 0) || (Z.of_nat (length protocols) <? n)).
    + now inversion H.
    + destruct (protocols !! Z.to_nat (n - 1)); [discriminate | now inversion H].
  - unfold SetRepeat in H. destruct (n <=? 0); [now inversion H | discriminate].
Qed.

Lemma config_error_unchanged_witness :
  let s := fst (SetRepeat (NewRCSwitch (ByNumber 17)) 3) in
  let err := Errorf "Protocol %d is not supported, supported are 1 to %d" [7; 6] in
  (SetProtocol s 7 = (s, Some err) \/ SetRepeat s 7 = (s, Some err))
  /\ s = s /\ s_protocol s = s_protocol s /\ s_nrRepeat s = s_nrRepeat s.
Proof.
  intros s err.
  assert (H : SetProtocol s 7 = (s, Some err) \/ SetRepeat s 7 = (s, Some err))
    by (left; reflexivity).
  split; [exact H | exact (config_error_unchanged s s 7 err H)].
Defined.

(** ** Switch controller *)

(** A successful [SwitchOn] has encoded a codeword, sent it, and then set
    the entry for [group+device]. *)
Lemma SwitchOn_success (s s' : RCSwitch) (family group device : string)
      (evs : list event) :
  SwitchOn s family group device = (s', evs, None) ->
  exists code, getCodeWord family group device true = Ok code
               /\ evs = sendTriState s code
               /\ s' = setIsOn s (group +:+ device) true.
Proof.
  unfold SwitchOn. destruct (getCodeWord family group device true) as [code|e].
  - intros H. inversion H. now exists code.
  - discriminate.
Qed.

Lemma SwitchOff_success (s s' : RCSwitch) (family group device : string)
      (evs : list event) :
  SwitchOff s family group device = (s', evs, None) ->
  exists code, getCodeWord family group device false = Ok code
               /\ evs = sendTriState s code
               /\ s' = setIsOn s (group +:+ device) false.
Proof.
  unfold SwitchOff. destruct (getCodeWord family group device false) as [code|e].
  - intros H. inversion H. now exists code.
  - discriminate.
Qed.

(** C8: when [SwitchOn] or [SwitchOff] returns an error, the call has
    emitted no event (no pin write) and returns the object unchanged, state
    map included. *)
Theorem Switch_error_no_effect (s s' : RCSwitch) (family group device : string)
        (evs : list event) (err : error) :
  SwitchOn s family group device = (s', evs, Some err)
  \/ SwitchOff s family group device = (s', evs, Some err) ->
  evs = [] /\ pinWrites evs = 0%nat /\ s' = s /\ s_isOn s' = s_isOn s.
Proof.
  intros H. assert (E : evs = [] /\ s' = s).
  { destruct H as [H | H]; [unfold SwitchOn in H | unfold SwitchOff in H].
    - destruct (getCodeWord family group device true);
        [discriminate | now inversion H].
    - destruct (getCodeWord family group device false);
        [discriminate | now inversion H]. }
  destruct E as [-> ->]. repeat split.
Qed.

Lemma Switch_error_no_effect_witness :
  let s := NewRCSwitch (ByNumber 17) in
  let err := errorString "family, group, device combination not supported" in
  (SwitchOn s "" "11011" "1" = (s, [], Some err)
   \/ SwitchOff s "" "11011" "1" = (s, [], Some err))
  /\ @nil event = [] /\ pinWrites [] = 0%nat /\ s = s /\ s_isOn s = s_isOn s.
Proof.
  intros s err.
  assert (H : SwitchOn s "" "11011" "1" = (s, [], Some err)
              \/ SwitchOff s "" "11011" "1" = (s, [], Some err))
    by (right; reflexivity).
  split; [exact H |].
  exact (Switch_error_no_effect s s "" "11011" "1" [] err H).
Defined.

Lemma IsOn_setIsOn (s : RCSwitch) (key group device : string) (v : bool) :
  group +:+ device = key -> IsOn (setIsOn s key v) group device = v.
Proof.
  intros <-. unfold IsOn, setIsOn. cbn [s_isOn].
  now rewrite lookup_insert_eq.
Qed.

(** The key of ("1","23") is the key of ("12","3"). *)
Example key_1_23_12_3 : "1" +:+ "23" = "12" +:+ "3".
Proof. reflexivity. Qed.

(** C9: the key is the concatenation [group+device]: whenever
    [g1+d1 = g2+d2], after a successful [SwitchOn(family, g1, d1)] the call
    [IsOn(g2, d2)] returns true, both pairs reading and writing the same map
    entry. *)
Theorem IsOn_key_aliasing (s s' : RCSwitch) (family g1 d1 g2 d2 : string)
        (evs : list event) :
  g1 +:+ d1 = g2 +:+ d2 ->
  SwitchOn s family g1 d1 = (s', evs, None) ->
  IsOn s' g2 d2 = true
  /\ s_isOn s' = <[g2 +:+ d2 := true]> (s_isOn s)
  /\ forall t, s_isOn t !! (g1 +:+ d1) = s_isOn t !! (g2 +:+ d2).
Proof.
  intros Hk H. destruct (SwitchOn_success _ _ _ _ _ _ H) as (code & _ & _ & ->).
  repeat split.
  - now apply IsOn_setIsOn.
  - cbn [setIsOn s_isOn]. now rewrite Hk.
  - intros t. now rewrite Hk.
Qed.

Lemma IsOn_key_aliasing_witness :
  let s := NewRCSwitch (ByNumber 17) in
  let s' := fst (fst (SwitchOn s "" "11011" "10000")) in
  let evs := snd (fst (SwitchOn s "" "11011" "10000")) in
  ("11011" +:+ "10000" = "1101" +:+ "110000"
   /\ SwitchOn s "" "11011" "10000" = (s', evs, None))
  /\ IsOn s' "1101" "110000" = true
  /\ s_isOn s' = <["1101" +:+ "110000" := true]> (s_isOn s)
  /\ forall t, s_isOn t !! ("11011" +:+ "10000") = s_isOn t !! ("1101" +:+ "110000").
Proof.
  intros s s' evs.
  assert (Hk : "11011" +:+ "10000" = "1101" +:+ "110000") by reflexivity.
  assert (H : SwitchOn s "" "11011" "10000" = (s', evs, None)) by reflexivity.
  split; [split; [exact Hk | exact H] |].
  exact (IsOn_key_aliasing s s' "" "11011" "10000" "1101" "110000" evs Hk H).
Defined.

(** [IsOn] on a new object is false for every group and device. *)
Lemma IsOn_new (pin : PinIO) (group device : string) :
  IsOn (NewRCSwitch pin) group device = false.
Proof. unfold IsOn. cbn [NewRCSwitch]. reflexivity. Qed.

(** C2 (the code departs from it): on a new object
    [SwitchOn("", "1", "2")] returns the error of the Type D encoder, emits
    nothing and records nothing, so [IsOn("1","2")] is false afterwards;
    [SwitchOff("", "1", "2")] fails the same way.  (On a new object [IsOn]
    is false for every group and device.) *)
Theorem SwitchOn_typeB_not_recorded :
  let s := NewRCSwitch (ByNumber 17) in
  SwitchOn s "" "1" "2"
  = (s, [], Some (errorString "Group has to be in a-d or A-D"))
  /\ IsOn (fst (fst (SwitchOn s "" "1" "2"))) "1" "2" = false
  /\ SwitchOff s "" "1" "2"
     = (s, [], Some (errorString "Group has to be in a-d or A-D"))
  /\ getCodeWordB 1 2 true = Ok "0FFFF0FFFFFF"
  /\ forall group device, IsOn s group device = false.
Proof. repeat split. Qed.

(** * Further properties *)

(** ** Range loops *)

(** A range loop yields at most one rune per byte. *)
Lemma runes_length_le (s : string) :
  (length (runes s) <= String.length s)%nat.
Proof.
  assert (H : forall n s, (String.length s <= n)%nat ->
                          (length (runes s) <= String.length s)%nat).
  { clear s. induction n as [|n IH]; intros s Hn.
    - destruct s; [cbn; lia | cbn in Hn; lia].
    - destruct s as [|b0 t1]; [cbn; lia|].
      cbn [String.length] in Hn.
      assert (H1 : (length (runes t1) <= String.length t1)%nat)
        by (apply IH; lia).
      cbn [runes]. destruct (byteZ b0 <? 128);
        [cbn [length String.length]; lia|].
      destruct t1 as [|b1 t2]; [cbn; lia|].
      cbn [String.length] in Hn.
      assert (H2 : (length (runes t2) <= String.length t2)%nat)
        by (apply IH; lia).
      destruct (lead2 (byteZ b0) (byteZ b1));
        [cbn [length String.length]; lia|].
      destruct t2 as [|b2 t3];
        [cbn [length String.length] in *; lia|].
      cbn [String.length] in Hn.
      assert (H3 : (length (runes t3) <= String.length t3)%nat)
        by (apply IH; lia).
      destruct (lead3 (byteZ b0) (byteZ b1) && cont (byteZ b2));
        [cbn [length String.length]; lia|].
      destruct t3 as [|b3 t4];
        [cbn [length String.length] in *; lia|].
      cbn [String.length] in Hn.
      assert (H4 : (length (runes t4) <= String.length t4)%nat)
        by (apply IH; lia).
      destruct (lead4 (byteZ b0) (byteZ b1) && cont (byteZ b2) && cont (byteZ b3));
        cbn [length String.length] in *; lia. }
  apply (H (String.length s)). lia.
Qed.

(** ** Encoders: errors do not depend on the status *)

Lemma errorOf_getCodeWordA (group device : string) :
  errorOf (getCodeWordA group device true)
  = errorOf (getCodeWordA group device false).
Proof.
  unfold getCodeWordA.
  destruct (negb (len group =? 5)); [reflexivity|].
  destruct (negb (len device =? 5)); reflexivity.
Qed.

Lemma errorOf_getCodeWordB (group device : Z) :
  errorOf (getCodeWordB group device true)
  = errorOf (getCodeWordB group device false).
Proof.
  unfold getCodeWordB.
  destruct ((group <? 1) || (4 <? group) || (device <? 1) || (4 <? device));
    reflexivity.
Qed.

Lemma errorOf_getCodeWordC (family group device : string) :
  errorOf (getCodeWordC family group device true)
  = errorOf (getCodeWordC family group device false).
Proof.
  unfold getCodeWordC.
  destruct (negb (len family =? 1)); [reflexivity|].
  destruct (strconv.ParseUint family 16 8) as [f [e|]]; [reflexivity|].
  destruct (strconv.Atoi group) as [g [e|]]; [reflexivity|].
  destruct ((g <? 1) || (4 <? g)); [reflexivity|].
  destruct (strconv.Atoi device) as [d [e|]]; [reflexivity|].
  destruct ((d <? 1) || (4 <? d)); reflexivity.
Qed.

Lemma errorOf_getCodeWordD (group : string) (device : Z) :
  errorOf (getCodeWordD group device true)
  = errorOf (getCodeWordD group device false).
Proof.
  unfold getCodeWordD.
  destruct (negb (len group =? 1)); [reflexivity|].
  destruct (ToLower group =? "a")%string;
    [|destruct (ToLower group =? "b")%string;
      [|destruct (ToLower group =? "c")%string;
        [|destruct (ToLower group =? "d")%string; [|reflexivity]]]];
    (destruct (device =? 1);
     [|destruct (device =? 2); [|destruct (device =? 3)]]); reflexivity.
Qed.

Lemma errorOf_getCodeWord (family group device : string) :
  errorOf (getCodeWord family group device true)
  = errorOf (getCodeWord family group device false).
Proof.
  unfold getCodeWord.
  destruct (negb (family =? "")%string); [apply errorOf_getCodeWordC|].
  destruct ((1 <? len group) && (1 <? len device));
    [apply errorOf_getCodeWordA|].
  destruct ((len group =? 1) && (len device =? 1)); [|reflexivity].
  destruct (strconv.Atoi device) as [d [e|]]; [reflexivity|].
  destruct (strconv.Atoi group) as [g [e|]];
    [apply errorOf_getCodeWordB | apply errorOf_getCodeWordD].
Qed.

(** X1: [SwitchOn] and [SwitchOff] with the same arguments return the same
    error result: one fails exactly when the other does, and with the same
    error. *)
Theorem SwitchOn_SwitchOff_same_error (s : RCSwitch)
        (family group device : string) :
  snd (SwitchOn s family group device) = snd (SwitchOff s family group device).
Proof.
  pose proof (errorOf_getCodeWord family group device) as H.
  unfold SwitchOn, SwitchOff.
  destruct (getCodeWord family group device true);
    destruct (getCodeWord family group device false);
    cbn [errorOf] in H; cbn [snd]; congruence.
Qed.

(** ** The dispatch with an empty family *)

Lemma len_one_inv (s : string) : len s = 1 -> exists c, s = String c "".
Proof.
  destruct s as [|c [|c' t]]; intros H.
  - discriminate.
  - now exists c.
  - rewrite !len_cons in H. pose proof (len_nonneg t). lia.
Qed.

(** With an empty family, [getCodeWord] returns a codeword exactly when
    group and device both have 5 bytes. *)
Lemma isOk_getCodeWord_empty_family (group device : string) (status : bool) :
  isOk (getCodeWord "" group device status)
  = (len group =? 5) && (len device =? 5).
Proof.
  destruct (len group =? 5) eqn:Hg; destruct (len device =? 5) eqn:Hd;
    cbn [andb].
  - apply Z.eqb_eq in Hg, Hd.
    destruct (getCodeWordA_runes group device status Hg Hd) as [E1 E2].
    now rewrite E1, E2.
  - unfold getCodeWord. cbn [String.eqb negb].
    destruct ((1 <? len group) && (1 <? len device)).
    + unfold getCodeWordA. now rewrite Hg, Hd.
    + destruct ((len group =? 1) && (len device =? 1)) eqn:H1; [|reflexivity].
      apply Z.eqb_eq in Hg. apply andb_true_iff in H1. lia.
  - unfold getCodeWord. cbn [String.eqb negb].
    destruct ((1 <? len group) && (1 <? len device)).
    + unfold getCodeWordA. now rewrite Hg.
    + destruct ((len group =? 1) && (len device =? 1)) eqn:H1; [|reflexivity].
      apply Z.eqb_eq in Hd. apply andb_true_iff in H1. lia.
  - destruct ((len group =? 1) && (len device =? 1)) eqn:H1.
    + apply andb_true_iff in H1. destruct H1 as [G D].
      apply Z.eqb_eq in G, D. destruct (len_one_inv group G) as [c ->].
      destruct (getCodeWord_one_byte_fails c device status D) as [e ->].
      reflexivity.
    + unfold getCodeWord. cbn [String.eqb negb]. rewrite H1.
      destruct ((1 <? len group) && (1 <? len device)); [|reflexivity].
      unfold getCodeWordA. now rewrite Hg.
Qed.

(** X2: with an empty family, [SwitchOn] and [SwitchOff] succeed exactly
    when group and device both have 5 bytes; every other shape is rejected,
    one byte each (the Type B and Type D shape) included. *)
Theorem Switch_empty_family_accepts (s : RCSwitch) (group device : string) :
  isNil (snd (SwitchOn s "" group device))
  = (len group =? 5) && (len device =? 5)
  /\ isNil (snd (SwitchOff s "" group device))
     = (len group =? 5) && (len device =? 5).
Proof.
  rewrite <- (isOk_getCodeWord_empty_family group device true) at 1.
  rewrite <- (isOk_getCodeWord_empty_family group device false).
  unfold SwitchOn, SwitchOff.
  destruct (getCodeWord "" group device true);
    destruct (getCodeWord "" group device false); split; reflexivity.
Qed.

(** ** Type A: what the codeword determines *)

Lemma symsA_zeroPattern (s : string) :
  symsA (map byteZ (list_ascii_of_string s)) = patSyms (zeroPattern s).
Proof.
  induction s as [|c s IH]; [reflexivity|].
  cbn [list_ascii_of_string map symsA patSyms zeroPattern fold_right].
  fold (symsA (map byteZ (list_ascii_of_string s))).
  fold (patSyms (zeroPattern s)). now rewrite IH.
Qed.

Lemma patSyms_cons (z : bool) (p : list bool) :
  patSyms (z :: p)
  = String (if z then "F"%char else "0"%char) (patSyms p).
Proof. destruct z; reflexivity. Qed.

Lemma patSyms_inj (p q : list bool) : patSyms p = patSyms q -> p = q.
Proof.
  revert q. induction p as [|z p IH]; intros [|y q] H.
  - reflexivity.
  - rewrite patSyms_cons in H. discriminate.
  - rewrite patSyms_cons in H. discriminate.
  - rewrite !patSyms_cons in H. inversion H as [[Hz Hp]].
    f_equal; [destruct z, y; congruence | now apply IH].
Qed.

Lemma len_patSyms (p : list bool) : len (patSyms p) = Z.of_nat (length p).
Proof.
  induction p as [|z p IH]; [reflexivity|].
  rewrite patSyms_cons, len_cons, IH. cbn [length]. lia.
Qed.

Lemma zeroPattern_append (a b : string) :
  zeroPattern (a +:+ b) = (zeroPattern a ++ zeroPattern b)%list.
Proof.
  induction a as [|c a IH]; [reflexivity|].
  rewrite append_cons. cbn [zeroPattern app]. now rewrite IH.
Qed.

Lemma length_zeroPattern (s : string) :
  Z.of_nat (length (zeroPattern s)) = len s.
Proof.
  induction s as [|c s IH]; [reflexivity|].
  cbn [zeroPattern length]. rewrite len_cons. lia.
Qed.

(** Two appends with left parts of the same length agree part by part. *)
Lemma append_inj_len (a a' b b' : string) :
  len a = len a' -> a +:+ b = a' +:+ b' -> a = a' /\ b = b'.
Proof.
  revert a'. induction a as [|c a IH]; intros [|c' a'] L H.
  - now rewrite !append_nil_l in H.
  - rewrite len_cons in L. pose proof (len_nonneg a').
    change (len "") with 0 in L. lia.
  - rewrite len_cons in L. pose proof (len_nonneg a).
    change (len "") with 0 in L. lia.
  - rewrite !append_cons in H. inversion H as [[Hc Ht]].
    rewrite !len_cons in L.
    destruct (IH a' ltac:(lia) Ht) as [-> ->]. split; reflexivity.
Qed.

(** The Type A codeword of single-byte arguments. *)
Lemma getCodeWordA_pattern (group device : string) (status : bool) :
  len group = 5 -> len device = 5 ->
  isASCII group = true -> isASCII device = true ->
  getCodeWordA group device status
  = Ok (patSyms (zeroPattern group ++ zeroPattern device)
        +:+ (if status then "0F" else "F0")).
Proof.
  intros Hg Hd Ag Ad.
  destruct (getCodeWordA_runes group device status Hg Hd) as [_ ->].
  rewrite runes_ascii by now rewrite isASCII_append, Ag, Ad.
  now rewrite symsA_zeroPattern, zeroPattern_append.
Qed.

(** Equal Type A codewords come from equal zero patterns and status. *)
Lemma getCodeWordA_eq_inv (g d g' d' : string) (st st' : bool) :
  len g = 5 -> len d = 5 -> len g' = 5 -> len d' = 5 ->
  isASCII g = true -> isASCII d = true ->
  isASCII g' = true -> isASCII d' = true ->
  getCodeWordA g d st = getCodeWordA g' d' st' ->
  zeroPattern g = zeroPattern g' /\ zeroPattern d = zeroPattern d'
  /\ st = st'.
Proof.
  intros Lg Ld Lg' Ld' Ag Ad Ag' Ad'.
  rewrite (getCodeWordA_pattern g d st), (getCodeWordA_pattern g' d' st')
    by assumption.
  intros H. inversion H as [E]. clear H.
  apply append_inj_len in E.
  - destruct E as [E1 E2]. apply patSyms_inj in E1.
    apply app_inj_1 in E1.
    + destruct E1 as [-> ->]. repeat split.
      destruct st, st'; try reflexivity; discriminate.
    + apply Nat2Z.inj. rewrite !length_zeroPattern. lia.
  - rewrite !len_patSyms, !length_app, !Nat2Z.inj_add, !length_zeroPattern.
    lia.
Qed.

(** X3: on arguments of 5 single-byte characters each, two Type A
    codewords are equal exactly when the status is the same and group and
    device have their '0' characters at the same places: any character other
    than '0' is encoded like '1'. *)
Theorem getCodeWordA_zero_pattern (g d g' d' : string) (st st' : bool) :
  len g = 5 -> len d = 5 -> len g' = 5 -> len d' = 5 ->
  isASCII g = true -> isASCII d = true ->
  isASCII g' = true -> isASCII d' = true ->
  getCodeWordA g d st = getCodeWordA g' d' st'
  <-> zeroPattern g = zeroPattern g' /\ zeroPattern d = zeroPattern d'
      /\ st = st'.
Proof.
  intros Lg Ld Lg' Ld' Ag Ad Ag' Ad'. split.
  - now apply getCodeWordA_eq_inv.
  - intros (Eg & Ed & ->).
    rewrite (getCodeWordA_pattern g d st'), (getCodeWordA_pattern g' d' st')
      by assumption.
    now rewrite Eg, Ed.
Qed.

Lemma getCodeWordA_zero_pattern_witness :
  getCodeWordA "1x0 Z" "00700" true = getCodeWordA "11011" "00100" true
  <-> zeroPattern "1x0 Z" = zeroPattern "11011"
      /\ zeroPattern "00700" = zeroPattern "00100" /\ true = true.
Proof.
  apply (getCodeWordA_zero_pattern "1x0 Z" "00700" "11011" "00100" true true);
    reflexivity.
Defined.

Lemma byteZ_inj (c c' : ascii) : byteZ c = byteZ c' -> c = c'.
Proof.
  unfold byteZ. intros H. apply N2Z.inj in H.
  rewrite <- (ascii_N_embedding c), <- (ascii_N_embedding c'). now rewrite H.
Qed.

Lemma zeroPattern_binary_inj (s s' : string) :
  isBinary s = true -> isBinary s' = true ->
  zeroPattern s = zeroPattern s' -> s = s'.
Proof.
  revert s'. induction s as [|c s IH]; intros [|c' s'] B B' H;
    try reflexivity; try discriminate.
  cbn [isBinary] in B, B'. cbn [zeroPattern] in H.
  apply andb_true_iff in B, B'. destruct B as [Bc Bs], B' as [Bc' Bs'].
  inversion H as [[Hc Hs]]. f_equal; [|now apply IH].
  apply byteZ_inj. unfold r0, r1 in *. lia.
Qed.

(** X4: on binary strings the Type A encoder is injective: different
    (group, device, status) never share a codeword. *)
Theorem getCodeWordA_binary_injective (g d g' d' : string) (st st' : bool) :
  len g = 5 -> len d = 5 -> len g' = 5 -> len d' = 5 ->
  isBinary g = true -> isBinary d = true ->
  isBinary g' = true -> isBinary d' = true ->
  getCodeWordA g d st = getCodeWordA g' d' st' ->
  g = g' /\ d = d' /\ st = st'.
Proof.
  intros Lg Ld Lg' Ld' Bg Bd Bg' Bd' H.
  apply getCodeWordA_eq_inv in H;
    try assumption; try (now apply isBinary_isASCII).
  destruct H as (Hg & Hd & Hs).
  repeat split; [| |exact Hs]; now apply zeroPattern_binary_inj.
Qed.

Lemma getCodeWordA_binary_injective_witness :
  "11011" = "11011" /\ "10000" = "10000" /\ true = true.
Proof.
  apply (getCodeWordA_binary_injective
           "11011" "10000" "11011" "10000" true true); reflexivity.
Defined.

(** ** Type B, C and D encoders *)

Ltac split_ifs :=
  repeat match goal with
         | |- context [if ?c then _ else _] => destruct c
         end.

Lemma getCodeWordB_Ok_range (g d : Z) (st : bool) (code : string) :
  getCodeWordB g d st = Ok code ->
  (g = 1 \/ g = 2 \/ g = 3 \/ g = 4) /\ (d = 1 \/ d = 2 \/ d = 3 \/ d = 4).
Proof.
  intros H. unfold getCodeWordB in H.
  destruct ((g <? 1) || (4 <? g) || (d <? 1) || (4 <? d)) eqn:E;
    [discriminate | lia].
Qed.

Lemma getCodeWordB_Ok_shape (g d : Z) (st : bool) (code : string) :
  getCodeWordB g d st = Ok code ->
  len code = 12 /\ isTriState code = true /\ noOne code = true.
Proof.
  intros H. destruct (getCodeWordB_Ok_range _ _ _ _ H) as [Hg Hd].
  destruct Hg as [->|[->|[->| ->]]]; destruct Hd as [->|[->|[->| ->]]];
    destruct st; inversion H; repeat split.
Qed.

(** X5: [getCodeWordB] returns a codeword exactly for group and device in
    1..4; the codeword has 12 symbols, all '0' or 'F', and identifies its
    arguments: different (group, device, status) never share a codeword. *)
Theorem getCodeWordB_range_injective (g d g' d' : Z) (st st' : bool) :
  isOk (getCodeWordB g d st) = between 1 g 4 && between 1 d 4
  /\ (forall code, getCodeWordB g d st = Ok code ->
                   len code = 12 /\ isTriState code = true
                   /\ noOne code = true)
  /\ (forall code, getCodeWordB g d st = Ok code ->
                   getCodeWordB g' d' st' = Ok code ->
                   g = g' /\ d = d' /\ st = st').
Proof.
  split; [|split].
  - unfold getCodeWordB, between.
    destruct ((g <? 1) || (4 <? g) || (d <? 1) || (4 <? d)) eqn:E;
      cbn [isOk]; lia.
  - intros code. apply getCodeWordB_Ok_shape.
  - intros code H H'.
    destruct (getCodeWordB_Ok_range _ _ _ _ H) as [Hg Hd].
    destruct (getCodeWordB_Ok_range _ _ _ _ H') as [Hg' Hd'].
    rewrite <- H in H'. clear H.
    destruct Hg as [->|[->|[->| ->]]]; destruct Hd as [->|[->|[->| ->]]];
      destruct Hg' as [->|[->|[->| ->]]]; destruct Hd' as [->|[->|[->| ->]]];
      destruct st, st'; try discriminate H'; repeat split.
Qed.

Lemma conf_cases (i : Z) : conf i = "00" \/ conf i = "F0".
Proof.
  unfold conf.
  set (iu := (i mod 2 ^ strconv.IntSize - 1) mod 2 ^ strconv.IntSize).
  assert (H2 : (Z.land iu 2 =? 1) = false).
  { apply Z.eqb_neq. intros H.
    assert (Hb : Z.testbit (Z.land iu 2) 0 = Z.testbit 1 0) by now rewrite H.
    rewrite Z.land_spec in Hb. cbn in Hb. rewrite andb_false_r in Hb.
    discriminate. }
  rewrite H2. destruct (Z.land iu 1 =? 1); auto.
Qed.

Lemma len_ToLower (s : string) : len (ToLower s) = len s.
Proof.
  induction s as [|c s IH]; [reflexivity|].
  cbn [ToLower]. now rewrite !len_cons, IH.
Qed.

Lemma lowerByte_idem (c : ascii) : lowerByte (lowerByte c) = lowerByte c.
Proof. destruct c as [[] [] [] [] [] [] [] []]; reflexivity. Qed.

Lemma ToLower_idem (s : string) : ToLower (ToLower s) = ToLower s.
Proof.
  induction s as [|c s IH]; [reflexivity|].
  cbn [ToLower]. now rewrite lowerByte_idem, IH.
Qed.

(** The family value of a one-byte family is a hexadecimal digit. *)
Lemma ParseUint_one_byte (c : ascii) (v : Z) :
  strconv.ParseUint (String c "") 16 8 = (v, None) -> 0 <= v < 16.
Proof.
  destruct c as [[] [] [] [] [] [] [] []]; intros H; vm_compute in H;
    inversion H; lia.
Qed.

Lemma len_familyBits (f : Z) : len (fst (familyBits f "")) = 4.
Proof. unfold familyBits. cbn [fold_left fst]. split_ifs; reflexivity. Qed.

Lemma len_conf (i : Z) : len (conf i) = 2.
Proof. destruct (conf_cases i) as [-> | ->]; reflexivity. Qed.

(** What a codeword of [getCodeWordC] says about the arguments. *)
Lemma getCodeWordC_Ok_inv (family group device code : string)
      (status : bool) :
  getCodeWordC family group device status = Ok code ->
  exists v g d,
    strconv.ParseUint family 16 8 = (v, None) /\ 0 <= v < 16
    /\ strconv.Atoi group = (g, None) /\ 1 <= g <= 4
    /\ strconv.Atoi device = (d, None) /\ 1 <= d <= 4
    /\ code = fst (familyBits v "") +:+ conf d +:+ conf g +:+ "0FF"
              +:+ (if status then "F" else "0").
Proof.
  unfold getCodeWordC.
  destruct (negb (len family =? 1)) eqn:L; [discriminate|].
  destruct (strconv.ParseUint family 16 8) as [v [e|]] eqn:P; [discriminate|].
  destruct (strconv.Atoi group) as [g [e|]]; [discriminate|].
  destruct ((g <? 1) || (4 <? g)) eqn:G; [discriminate|].
  destruct (strconv.Atoi device) as [d [e|]]; [discriminate|].
  destruct ((d <? 1) || (4 <? d)) eqn:D; [discriminate|].
  intros H. inversion H as [E]. clear H E.
  exists v, g, d. repeat split; try lia.
  - apply negb_false_iff, Z.eqb_eq in L.
    destruct (len_one_inv family L) as [c ->].
    apply (ParseUint_one_byte c v P).
  - apply negb_false_iff, Z.eqb_eq in L.
    destruct (len_one_inv family L) as [c ->].
    apply (ParseUint_one_byte c v P).
  - destruct status; now rewrite !append_assoc.
Qed.

Lemma getCodeWordC_Ok_shape (family group device code : string)
      (status : bool) :
  getCodeWordC family group device status = Ok code ->
  len code = 12 /\ isTriState code = true /\ noOne code = true.
Proof.
  intros H.
  destruct (getCodeWordC_Ok_inv _ _ _ _ _ H) as (v & g & d & _ & _ & _ & _ & _ & _ & ->).
  unfold familyBits. cbn [fold_left fst].
  destruct (conf_cases d) as [-> | ->]; destruct (conf_cases g) as [-> | ->];
    destruct status; split_ifs; repeat split.
Qed.

Lemma familyBits_inj (v v' : Z) :
  0 <= v < 16 -> 0 <= v' < 16 ->
  fst (familyBits v "") = fst (familyBits v' "") -> v = v'.
Proof.
  intros Hv Hv' E.
  assert (C : forall x, 0 <= x < 16 ->
                x = 0 \/ x = 1 \/ x = 2 \/ x = 3 \/ x = 4 \/ x = 5 \/ x = 6
                \/ x = 7 \/ x = 8 \/ x = 9 \/ x = 10 \/ x = 11 \/ x = 12
                \/ x = 13 \/ x = 14 \/ x = 15) by (intros; lia).
  destruct (C v Hv) as [->|[->|[->|[->|[->|[->|[->|[->|[->|[->|[->|[->|[->|[->|[->| ->]]]]]]]]]]]]]]];
    destruct (C v' Hv') as [->|[->|[->|[->|[->|[->|[->|[->|[->|[->|[->|[->|[->|[->|[->| ->]]]]]]]]]]]]]]];
    try reflexivity; vm_compute in E; discriminate E.
Qed.

(** X6: every codeword [getCodeWordC] returns has 12 symbols, all '0' or
    'F', and identifies the family and the status: two calls that return
    the same codeword were given the same status and families with the same
    hexadecimal value. *)
Theorem getCodeWordC_shape_family (family family' group group' : string)
        (device device' code : string) (status status' : bool) :
  getCodeWordC family group device status = Ok code ->
  len code = 12 /\ isTriState code = true /\ noOne code = true
  /\ (getCodeWordC family' group' device' status' = Ok code ->
      fst (strconv.ParseUint family 16 8) = fst (strconv.ParseUint family' 16 8)
      /\ status = status').
Proof.
  intros H.
  destruct (getCodeWordC_Ok_shape _ _ _ _ _ H) as (S1 & S2 & S3).
  split; [exact S1|]. split; [exact S2|]. split; [exact S3|].
  intros H'.
  destruct (getCodeWordC_Ok_inv _ _ _ _ _ H)
    as (v & g & d & P & Hv & _ & _ & _ & _ & ->).
  destruct (getCodeWordC_Ok_inv _ _ _ _ _ H')
    as (v' & g' & d' & P' & Hv' & _ & _ & _ & _ & E).
  apply append_inj_len in E; [|now rewrite !len_familyBits].
  destruct E as [EF E]. split.
  - rewrite P, P'. cbn [fst]. now apply familyBits_inj.
  - apply append_inj_len in E; [|now rewrite !len_conf].
    destruct E as [_ E].
    apply append_inj_len in E; [|now rewrite !len_conf].
    destruct E as [_ E].
    apply append_inj_len in E; [|reflexivity].
    destruct E as [_ E]. destruct status, status'; try reflexivity;
      discriminate E.
Qed.

Lemma getCodeWordC_shape_family_witness :
  len "0F0F00000FFF" = 12 /\ isTriState "0F0F00000FFF" = true
  /\ noOne "0F0F00000FFF" = true
  /\ (getCodeWordC "A" "1" "1" true = Ok "0F0F00000FFF" ->
      fst (strconv.ParseUint "a" 16 8) = fst (strconv.ParseUint "A" 16 8)
      /\ true = true).
Proof.
  apply (getCodeWordC_shape_family "a" "A" "1" "1" "3" "1" "0F0F00000FFF"
                                   true true).
  reflexivity.
Defined.

(** Upper and lower case of a family character parse alike. *)
Lemma ParseUint_lowerByte (c : ascii) :
  match strconv.ParseUint (String c "") 16 8,
        strconv.ParseUint (String (lowerByte c) "") 16 8 with
  | (v, None), (v', None) => v = v'
  | (_, Some _), (_, Some _) => True
  | _, _ => False
  end.
Proof. destruct c as [[] [] [] [] [] [] [] []]; vm_compute; exact I || reflexivity. Qed.

(** X9: [getCodeWordC] does not look at the case of the family digit: a
    family of single-byte characters (the strings [ToLower] is modelled on)
    and its lower-case form give the same codeword, or both an error. *)
Theorem getCodeWordC_family_case (family group device code : string)
        (status : bool) :
  isASCII family = true ->
  getCodeWordC (ToLower family) group device status = Ok code
  <-> getCodeWordC family group device status = Ok code.
Proof.
  intros _. unfold getCodeWordC. rewrite len_ToLower.
  destruct (negb (len family =? 1)) eqn:L; [reflexivity|].
  apply negb_false_iff, Z.eqb_eq in L.
  destruct (len_one_inv family L) as [c ->]. cbn [ToLower].
  pose proof (ParseUint_lowerByte c) as P.
  destruct (strconv.ParseUint (String c "") 16 8) as [v [e|]];
    destruct (strconv.ParseUint (String (lowerByte c) "") 16 8) as [v' [e'|]];
    try contradiction.
  - split; discriminate.
  - subst v'. reflexivity.
Qed.

Lemma getCodeWordC_family_case_witness :
  getCodeWordC (ToLower "B") "2" "1" false = Ok "FF0F00F00FF0"
  <-> getCodeWordC "B" "2" "1" false = Ok "FF0F00F00FF0".
Proof.
  apply (getCodeWordC_family_case "B" "2" "1" "FF0F00F00FF0" false).
  reflexivity.
Defined.

(** What a codeword of [getCodeWordD] says about the arguments. *)
Lemma getCodeWordD_Ok_inv (group code : string) (device : Z) (status : bool) :
  getCodeWordD group device status = Ok code ->
  (ToLower group = "a" \/ ToLower group = "b"
   \/ ToLower group = "c" \/ ToLower group = "d")
  /\ (device = 1 \/ device = 2 \/ device = 3)
  /\ code = groupBlock (ToLower group) +:+ deviceBlock device +:+ "000"
            +:+ (if status then "10" else "01").
Proof.
  unfold getCodeWordD.
  destruct (negb (len group =? 1)); [discriminate|].
  destruct (String.eqb_spec (ToLower group) "a") as [->|_];
    [|destruct (String.eqb_spec (ToLower group) "b") as [->|_];
      [|destruct (String.eqb_spec (ToLower group) "c") as [->|_];
        [|destruct (String.eqb_spec (ToLower group) "d") as [->|_];
          [|discriminate]]]];
    (destruct (Z.eqb_spec device 1) as [->|_];
     [|destruct (Z.eqb_spec device 2) as [->|_];
       [|destruct (Z.eqb_spec device 3) as [->|_]; [|discriminate]]]);
    intros H; inversion H as [E]; clear H E;
    (split; [tauto | split; [tauto | destruct status; reflexivity]]).
Qed.

(** X7: every codeword [getCodeWordD] returns has 12 symbols over 0, 1, F,
    and identifies the arguments up to the case of the group letter:
    two calls that return the same codeword have the same device, the
    same status and groups that differ at most in case. *)
Theorem getCodeWordD_shape_injective (g g' code : string) (d d' : Z)
        (st st' : bool) :
  getCodeWordD g d st = Ok code ->
  len code = 12 /\ isTriState code = true
  /\ (getCodeWordD g' d' st' = Ok code ->
      ToLower g = ToLower g' /\ d = d' /\ st = st').
Proof.
  intros H. destruct (getCodeWordD_Ok_inv _ _ _ _ H) as (G & D & ->).
  split; [|split].
  - destruct G as [->|[->|[->| ->]]]; destruct D as [->|[->| ->]];
      destruct st; reflexivity.
  - destruct G as [->|[->|[->| ->]]]; destruct D as [->|[->| ->]];
      destruct st; reflexivity.
  - intros H'.
    destruct (getCodeWordD_Ok_inv _ _ _ _ H') as (G' & D' & E).
    apply append_inj_len in E.
    2:{ destruct G as [->|[->|[->| ->]]];
          destruct G' as [->|[->|[->| ->]]]; reflexivity. }
    destruct E as [EG E]. apply append_inj_len in E.
    2:{ destruct D as [->|[->| ->]]; destruct D' as [->|[->| ->]];
          reflexivity. }
    destruct E as [ED E]. apply append_inj_len in E; [|reflexivity].
    destruct E as [_ ES]. split; [|split].
    + destruct G as [G|[G|[G|G]]]; destruct G' as [G'|[G'|[G'|G']]];
        rewrite G, G' in *; try reflexivity;
        vm_compute in EG; discriminate EG.
    + destruct D as [->|[->| ->]]; destruct D' as [->|[->| ->]];
        try reflexivity; vm_compute in ED; discriminate ED.
    + destruct st, st'; try reflexivity; discriminate ES.
Qed.

Lemma getCodeWordD_shape_injective_witness :
  len "1FFFF1F00010" = 12 /\ isTriState "1FFFF1F00010" = true
  /\ (getCodeWordD "A" 2 true = Ok "1FFFF1F00010" ->
      ToLower "a" = ToLower "A" /\ 2 = 2 /\ true = true).
Proof.
  apply (getCodeWordD_shape_injective "a" "A" "1FFFF1F00010" 2 2 true true).
  reflexivity.
Defined.

(** X8: [getCodeWordD] does not look at the case of the group letter: a
    group of single-byte characters (the strings [ToLower] is modelled on)
    and its lower-case form give the same codeword or the same error. *)
Theorem getCodeWordD_case_insensitive (group : string) (device : Z)
        (status : bool) :
  isASCII group = true ->
  getCodeWordD (ToLower group) device status
  = getCodeWordD group device status.
Proof.
  intros _. unfold getCodeWordD. now rewrite len_ToLower, ToLower_idem.
Qed.

Lemma getCodeWordD_case_insensitive_witness :
  getCodeWordD (ToLower "C") 3 false = getCodeWordD "C" 3 false.
Proof.
  apply (getCodeWordD_case_insensitive "C" 3 false). reflexivity.
Defined.

(** ** From codeword to waveforms *)

Lemma isTriState_append (a b : string) :
  isTriState (a +:+ b) = isTriState a && isTriState b.
Proof.
  induction a as [|x a IH]; [reflexivity|].
  rewrite append_cons. cbn [isTriState]. rewrite IH. now rewrite andb_assoc.
Qed.

Lemma isTriState_symsA (l : list Z) : isTriState (symsA l) = true.
Proof.
  induction l as [|b l IH]; [reflexivity|].
  cbn [symsA fold_right]. fold (symsA l). rewrite isTriState_append, IH.
  destruct (b =? r0); reflexivity.
Qed.

(** Every codeword the dispatch returns is over 0, 1, F and has at most 12
    symbols. *)
Lemma getCodeWord_Ok_shape (family group device code : string)
      (status : bool) :
  getCodeWord family group device status = Ok code ->
  isTriState code = true /\ len code <= 12.
Proof.
  unfold getCodeWord.
  destruct (negb (family =? "")%string).
  { intros H. destruct (getCodeWordC_Ok_shape _ _ _ _ _ H) as (L & T & _).
    split; [exact T | lia]. }
  destruct ((1 <? len group) && (1 <? len device)).
  { intros H.
    assert (L : len group = 5 /\ len device = 5).
    { unfold getCodeWordA in H.
      destruct (len group =? 5) eqn:G; [|discriminate].
      destruct (len device =? 5) eqn:D; [|discriminate]. lia. }
    destruct L as [G D].
    destruct (getCodeWordA_runes group device status G D) as [_ E].
    rewrite E in H. inversion H as [C]. clear H C E. split.
    - rewrite isTriState_append, isTriState_symsA. now destruct status.
    - rewrite len_append, len_symsA.
      pose proof (runes_length_le (group +:+ device)) as R.
      pose proof (len_append group device) as LA.
      assert (S : len (if status then "0F" else "F0") = 2)
        by now destruct status.
      rewrite S. unfold len in *. lia. }
  destruct ((len group =? 1) && (len device =? 1)); [|discriminate].
  destruct (strconv.Atoi device) as [d [e|]]; [discriminate|].
  destruct (strconv.Atoi group) as [g [e|]].
  - intros H. destruct (getCodeWordB_Ok_shape _ _ _ _ H) as (L & T & _).
    split; [exact T | lia].
  - intros H. destruct (getCodeWordD_Ok_inv _ _ _ _ H) as (G & D & ->).
    destruct G as [->|[->|[->| ->]]]; destruct D as [->|[->| ->]];
      destruct status; split; (reflexivity || discriminate).
Qed.

(** Sending a codeword over 0, 1, F: four pin writes per symbol and two for
    the sync waveform, in every round. *)
Lemma pinWrites_sendTriState (s : RCSwitch) (code : string) :
  isTriState code = true -> 0 <= s_nrRepeat s ->
  Z.of_nat (pinWrites (sendTriState s code))
  = s_nrRepeat s * (4 * len code + 2).
Proof.
  intros T N. unfold sendTriState.
  pose proof (triStateToBinary_expand_spec code (isTriState_isASCII code T)) as E.
  rewrite pinWrites_send; [|rewrite E; apply isBinary_isASCII,
                                       expand_spec_isBinary | exact N].
  rewrite E, (len_expand_spec code T). ring.
Qed.

(** X10: a successful [SwitchOn] or [SwitchOff] has encoded a codeword over
    0, 1, F of at most 12 symbols, none of which the expander skips, and has
    written the pin [4 * len code + 2] times in each of its [nrRepeat]
    rounds: at most 50 times per round. *)
Theorem Switch_success_pin_writes (s s' : RCSwitch)
        (family group device : string) (evs : list event) (status : bool) :
  0 <= s_nrRepeat s ->
  (if status then SwitchOn s family group device
   else SwitchOff s family group device) = (s', evs, None) ->
  exists code,
    getCodeWord family group device status = Ok code
    /\ isTriState code = true /\ len code <= 12
    /\ len (triStateToBinary code) = 2 * len code
    /\ Z.of_nat (pinWrites evs) = s_nrRepeat s * (4 * len code + 2)
    /\ Z.of_nat (pinWrites evs) <= s_nrRepeat s * 50.
Proof.
  intros N H.
  assert (S : exists code, getCodeWord family group device status = Ok code
                           /\ evs = sendTriState s code).
  { destruct status.
    - destruct (SwitchOn_success _ _ _ _ _ _ H) as (code & E & -> & _).
      now exists code.
    - destruct (SwitchOff_success _ _ _ _ _ _ H) as (code & E & -> & _).
      now exists code. }
  destruct S as (code & E & ->). exists code.
  destruct (getCodeWord_Ok_shape _ _ _ _ _ E) as [T L].
  pose proof (pinWrites_sendTriState s code T N) as W.
  repeat split; try assumption.
  - rewrite (triStateToBinary_expand_spec code (isTriState_isASCII code T)).
    apply len_expand_spec, T.
  - rewrite W. nia.
Qed.

Lemma Switch_success_pin_writes_witness :
  let s := NewRCSwitch (ByNumber 17) in
  exists code,
    getCodeWord "" "11011" "10000" true = Ok code
    /\ isTriState code = true /\ len code <= 12
    /\ len (triStateToBinary code) = 2 * len code
    /\ Z.of_nat (pinWrites (snd (fst (SwitchOn s "" "11011" "10000"))))
       = s_nrRepeat s * (4 * len code + 2)
    /\ Z.of_nat (pinWrites (snd (fst (SwitchOn s "" "11011" "10000"))))
       <= s_nrRepeat s * 50.
Proof.
  intros s.
  apply (Switch_success_pin_writes
           s (fst (fst (SwitchOn s "" "11011" "10000"))) "" "11011" "10000"
           (snd (fst (SwitchOn s "" "11011" "10000"))) true);
    [discriminate | reflexivity].
Defined.

(** ** Expander and compiler on arbitrary strings *)

Lemma len_expandRunes (l : list Z) :
  len (fold_right (fun c rest => expandRune c +:+ rest) "" l)
  <= 2 * Z.of_nat (length l)
  /\ isBinary (fold_right (fun c rest => expandRune c +:+ rest) "" l) = true.
Proof.
  induction l as [|c l [IH1 IH2]];
    [split; [cbn [fold_right length]; change (len "") with 0; lia
            | reflexivity]|].
  cbn [fold_right length]. rewrite len_append, Nat2Z.inj_succ.
  set (rest := fold_right _ _ l) in *. cbn [isBinary]. unfold expandRune.
  destruct (c =? r0); [split; [change (len "00") with 2; lia | exact IH2]|].
  destruct (c =? r1); [split; [change (len "11") with 2; lia | exact IH2]|].
  destruct (c =? rF); [split; [change (len "01") with 2; lia | exact IH2]|].
  split; [change (len "") with 0; lia | exact IH2].
Qed.

(** X11: for every string, whatever its bytes, [triStateToBinary] returns a
    string of '0' and '1' that is at most twice as long, and
    [binaryToWaveForm] returns at least the sync waveform and at most
    [len binary + 1] waveforms, the capacity it allocates. *)
Theorem expander_compiler_bounds (tristate binary : string) (prot : protocol) :
  isBinary (triStateToBinary tristate) = true
  /\ len (triStateToBinary tristate) <= 2 * len tristate
  /\ 1 <= Z.of_nat (length (binaryToWaveForm binary prot)) <= len binary + 1
  /\ last (binaryToWaveForm binary prot) = Some (syncBit prot).
Proof.
  pose proof (len_expandRunes (runes tristate)) as [L B].
  pose proof (runes_length_le tristate) as R1.
  pose proof (runes_length_le binary) as R2.
  rewrite triStateToBinary_runes, binaryToWaveForm_runes.
  rewrite length_app, length_map, last_snoc. cbn [length]. unfold len in *.
  repeat split; try assumption; lia.
Qed.

(** ** Transmitter: pin, level and time *)

Lemma lastWrite_app (a b : list event) :
  lastWrite (a ++ b)%list
  = match lastWrite b with Some l => Some l | None => lastWrite a end.
Proof.
  induction a as [|e a IH]; cbn [app lastWrite].
  - now destruct (lastWrite b).
  - rewrite IH. destruct (lastWrite b); reflexivity.
Qed.

Lemma lastWrite_pulses (ws : list waveform) (d : Z) (f s : Level)
      (pin : PinIO) :
  ws <> [] -> lastWrite (pulses ws d f s pin) = Some s.
Proof.
  induction ws as [|w ws IH]; [congruence|]. intros _.
  unfold pulses in *. cbn [flat_map]. rewrite lastWrite_app.
  destruct ws as [|w' ws]; [reflexivity|].
  rewrite IH by discriminate. reflexivity.
Qed.

Lemma lastWrite_rounds (body : list event) (k : nat) (l : Level) :
  (0 < k)%nat -> lastWrite body = Some l ->
  lastWrite (concat (repeat body k)) = Some l.
Proof.
  intros K B. destruct k as [|k]; [lia|]. clear K.
  induction k as [|k IH].
  - cbn [repeat concat]. now rewrite app_nil_r.
  - change (repeat body (S (S k))) with (body :: repeat body (S k)).
    cbn [concat]. rewrite lastWrite_app. now rewrite IH.
Qed.

Lemma onlyPin_app (pin : PinIO) (a b : list event) :
  onlyPin pin a -> onlyPin pin b -> onlyPin pin (a ++ b)%list.
Proof. unfold onlyPin. intros A B. apply Forall_app. now split. Qed.

Lemma onlyPin_pulses (ws : list waveform) (d : Z) (f s : Level)
      (pin : PinIO) :
  onlyPin pin (pulses ws d f s pin).
Proof.
  induction ws as [|w ws IH]; [constructor|].
  unfold pulses in *. cbn [flat_map]. apply onlyPin_app; [|exact IH].
  repeat constructor.
Qed.

Lemma onlyPin_rounds (pin : PinIO) (body : list event) (k : nat) :
  onlyPin pin body -> onlyPin pin (concat (repeat body k)).
Proof.
  intros B. induction k as [|k IH]; [constructor|].
  cbn [repeat concat]. now apply onlyPin_app.
Qed.

Lemma binaryToWaveForm_nonempty (binary : string) (prot : protocol) :
  binaryToWaveForm binary prot <> [].
Proof.
  rewrite binaryToWaveForm_runes.
  destruct (map _ (runes binary)); discriminate.
Qed.

(** X12: a transmission writes no pin other than the controller's, and
    with a positive repeat count its last write leaves the pin at the second
    level of the pulse: low, or high for an inverted protocol. *)
Theorem send_pin_discipline (s : RCSwitch) (binary : string) :
  0 < s_nrRepeat s ->
  onlyPin (s_pin s) (send s binary)
  /\ lastWrite (send s binary)
     = Some (if inverted (s_protocol s) then High else Low).
Proof.
  intros N. unfold send, transmit.
  pose proof (binaryToWaveForm_nonempty binary (s_protocol s)) as NE.
  destruct (inverted (s_protocol s)); split;
    try apply onlyPin_rounds, onlyPin_pulses;
    (apply lastWrite_rounds; [lia | now apply lastWrite_pulses]).
Qed.

Lemma send_pin_discipline_witness :
  let s := fst (SetProtocol (NewRCSwitch (ByNumber 17)) 6) in
  onlyPin (s_pin s) (send s "0110")
  /\ lastWrite (send s "0110")
     = Some (if inverted (s_protocol s) then High else Low).
Proof.
  intros s. apply (send_pin_discipline s "0110"). reflexivity.
Defined.

Lemma sleepTotal_app (a b : list event) :
  sleepTotal (a ++ b)%list = sleepTotal a + sleepTotal b.
Proof.
  induction a as [|e a IH]; [reflexivity|].
  cbn [app sleepTotal fold_right]. fold (sleepTotal (a ++ b)%list).
  fold (sleepTotal a). rewrite IH. destruct e; lia.
Qed.

Lemma sleepTotal_rounds (body : list event) (k : nat) :
  sleepTotal (concat (repeat body k)) = Z.of_nat k * sleepTotal body.
Proof.
  induction k as [|k IH]; [reflexivity|].
  cbn [repeat concat]. rewrite sleepTotal_app, IH. lia.
Qed.

(** One round over waveforms that each last [u] units of [d]. *)
Lemma sleepTotal_pulses (ws : list waveform) (d u : Z) (f s : Level)
      (pin : PinIO) :
  Forall (fun w => wrap64 (high w * d) + wrap64 (low w * d) = u * d) ws ->
  sleepTotal (pulses ws d f s pin) = Z.of_nat (length ws) * (u * d).
Proof.
  induction 1 as [|w ws Hw _ IH]; [reflexivity|].
  unfold pulses in *. cbn [flat_map]. rewrite sleepTotal_app, IH.
  cbn [sleepTotal fold_right length]. lia.
Qed.

Lemma steady_protocols (p : protocol) : In p protocols -> steady p = true.
Proof.
  intros H. assert (A : forallb steady protocols = true) by reflexivity.
  rewrite forallb_forall in A. now apply A.
Qed.

(** X13: under each of the six protocols the time a transmission sleeps
    depends on the length of the binary string only, not on its bits: every
    bit lasts as long as a zero, and each round adds the sync waveform. *)
Theorem send_duration (s : RCSwitch) (binary : string) :
  In (s_protocol s) protocols -> isASCII binary = true ->
  0 <= s_nrRepeat s ->
  let p := s_protocol s in
  sleepTotal (send s binary)
  = s_nrRepeat s
    * ((len binary * (high (zeroBit p) + low (zeroBit p))
        + (high (syncBit p) + low (syncBit p)))
       * (pulseLen p * Microsecond)).
Proof.
  intros P A N p. subst p. apply steady_protocols in P.
  unfold steady in P. cbn [forallb] in P.
  set (p := s_protocol s) in *.
  set (dd := pulseLen p * Microsecond) in *.
  assert (Hd : wrap64 dd = dd) by lia.
  assert (Hs : wrap64 (high (syncBit p) * dd) + wrap64 (low (syncBit p) * dd)
               = (high (syncBit p) + low (syncBit p)) * dd) by lia.
  assert (Hz : wrap64 (high (zeroBit p) * dd) + wrap64 (low (zeroBit p) * dd)
               = (high (zeroBit p) + low (zeroBit p)) * dd) by lia.
  assert (Ho : wrap64 (high (oneBit p) * dd) + wrap64 (low (oneBit p) * dd)
               = (high (zeroBit p) + low (zeroBit p)) * dd) by lia.
  unfold send, transmit. fold p. fold dd. rewrite Hd.
  assert (E : forall f l pin,
             sleepTotal (pulses (binaryToWaveForm binary p) dd f l pin)
             = (len binary * (high (zeroBit p) + low (zeroBit p))
                + (high (syncBit p) + low (syncBit p))) * dd).
  { intros f l pin. rewrite binaryToWaveForm_runes.
    unfold pulses. rewrite flat_map_app, sleepTotal_app.
    fold (pulses (map (fun b => if b =? r1 then oneBit p else zeroBit p)
                      (runes binary)) dd f l pin).
    rewrite (sleepTotal_pulses _ dd (high (zeroBit p) + low (zeroBit p))).
    - rewrite length_map, (runes_ascii_length binary A).
      cbn [flat_map app sleepTotal fold_right]. lia.
    - apply List.Forall_forall. intros w [b [<- _]]%in_map_iff.
      destruct (b =? r1); assumption. }
  destruct (inverted p); rewrite sleepTotal_rounds, E, Z2Nat.id by exact N;
    reflexivity.
Qed.

Lemma send_duration_witness :
  let s := NewRCSwitch (ByNumber 17) in
  sleepTotal (send s "000000000000010101010001")
  = 10 * ((24 * (1 + 3) + (1 + 31)) * (350 * 1000)).
Proof.
  intros s.
  apply (send_duration s "000000000000010101010001");
    [left; reflexivity | reflexivity | discriminate].
Defined.

(** ** Controller: what a command changes *)

Lemma Switch_result (s : RCSwitch) (family group device : string)
      (status : bool) :
  (if status then SwitchOn s family group device
   else SwitchOff s family group device)
  = match getCodeWord family group device status with
    | Err err => (s, [], Some err)
    | Ok code =>
      (setIsOn s (group +:+ device) status, sendTriState s code, None)
    end.
Proof. destruct status; reflexivity. Qed.

(** X14: [SwitchOn] and [SwitchOff], whether they fail or not, leave pin,
    protocol and repeat count as they were, and change [IsOn] for no pair
    whose [group+device] differs from theirs. *)
Theorem Switch_frame (s : RCSwitch) (family group device g' d' : string)
        (status : bool) :
  g' +:+ d' <> group +:+ device ->
  let s' := fst (fst (if status then SwitchOn s family group device
                      else SwitchOff s family group device)) in
  s_pin s' = s_pin s /\ s_protocol s' = s_protocol s
  /\ s_nrRepeat s' = s_nrRepeat s /\ IsOn s' g' d' = IsOn s g' d'.
Proof.
  intros K. rewrite Switch_result.
  destruct (getCodeWord family group device status); cbn [fst];
    [|repeat split].
  repeat split. unfold IsOn, setIsOn. cbn [s_isOn].
  rewrite lookup_insert_ne; [reflexivity | congruence].
Qed.

Lemma Switch_frame_witness :
  let s := NewRCSwitch (ByNumber 17) in
  let s' := fst (fst (SwitchOn s "" "11011" "10000")) in
  s_pin s' = s_pin s /\ s_protocol s' = s_protocol s
  /\ s_nrRepeat s' = s_nrRepeat s
  /\ IsOn s' "11011" "01000" = IsOn s "11011" "01000".
Proof.
  intros s.
  apply (Switch_frame s "" "11011" "10000" "11011" "01000" true).
  discriminate.
Defined.

Lemma IsOn_exec (s : RCSwitch) (c : cmd) (group device : string) :
  IsOn (exec s c) group device
  = record (group +:+ device) (IsOn s group device) c.
Proof.
  destruct c as [f g d | f g d]; unfold exec, record, SwitchOn, SwitchOff.
  - destruct (getCodeWord f g d true); cbn [fst isOk andb]; [|reflexivity].
    destruct (String.eqb_spec (g +:+ d) (group +:+ device)) as [E|E].
    + now apply IsOn_setIsOn.
    + unfold IsOn, setIsOn. cbn [s_isOn]. now rewrite lookup_insert_ne.
  - destruct (getCodeWord f g d false); cbn [fst isOk andb]; [|reflexivity].
    destruct (String.eqb_spec (g +:+ d) (group +:+ device)) as [E|E].
    + now apply IsOn_setIsOn.
    + unfold IsOn, setIsOn. cbn [s_isOn]. now rewrite lookup_insert_ne.
Qed.

(** X15: after any sequence of [SwitchOn] and [SwitchOff] calls, [IsOn]
    reports what the last accepted call with the same [group+device]
    commanded, whatever its family; rejected calls and calls for other keys
    do not count, and with no such call the earlier value stays (false on a
    new object). *)
Theorem IsOn_run (s : RCSwitch) (cmds : list cmd) (group device : string) :
  IsOn (run s cmds) group device
  = fold_left (record (group +:+ device)) cmds (IsOn s group device).
Proof.
  unfold run. revert s. induction cmds as [|c cmds IH]; intros s.
  - reflexivity.
  - cbn [fold_left]. rewrite IH. now rewrite IsOn_exec.
Qed.

(** ** Controller: configuration *)

Lemma lookup_protocols (i : nat) (p : protocol) :
  protocols !! i = Some p -> In p protocols /\ steady p = true.
Proof.
  intros H. assert (I : In p protocols)
    by (apply list_elem_of_In; eapply list_elem_of_lookup_2; exact H).
  split; [exact I | now apply steady_protocols].
Qed.

(** X16: every object made by [NewRCSwitch] and changed only through the
    exported methods has a positive repeat count and one of the six
    protocols of the table: no setter call, accepted or rejected, and no
    switch command breaks this. *)
Theorem reachable_config (s : RCSwitch) :
  reachable s -> 0 < s_nrRepeat s /\ In (s_protocol s) protocols.
Proof.
  induction 1 as [pin | s pin _ IH | s n _ IH | s n _ IH
                  | s f g d _ IH | s f g d _ IH].
  - split; [reflexivity | left; reflexivity].
  - exact IH.
  - unfold SetRepeat. destruct (n <=? 0) eqn:E; cbn [fst s_nrRepeat s_protocol];
      [exact IH | split; [lia | apply IH]].
  - unfold SetProtocol.
    destruct ((n <=? 0) || (Z.of_nat (length protocols) <? n)); [exact IH|].
    destruct (protocols !! Z.to_nat (n - 1)) as [p|] eqn:E; [|exact IH].
    cbn [fst s_nrRepeat s_protocol]. split; [apply IH|].
    apply (lookup_protocols _ _ E).
  - unfold SwitchOn. destruct (getCodeWord f g d true); exact IH.
  - unfold SwitchOff. destruct (getCodeWord f g d false); exact IH.
Qed.

Lemma reachable_config_witness :
  let s := fst (SetRepeat (fst (SetProtocol (NewRCSwitch (ByNumber 17)) 9)) 0) in
  0 < s_nrRepeat s /\ In (s_protocol s) protocols.
Proof.
  intros s. apply (reachable_config s).
  apply reach_SetRepeat, reach_SetProtocol, reach_new.
Defined.

(** X17: the setters do not touch the recorded states, and [SetRepeat] and
    [SetProtocol] can be called in either order. *)
Theorem setters_frame_commute (s : RCSwitch) (pin : PinIO) (n m : Z)
        (group device : string) :
  IsOn (SetPin s pin) group device = IsOn s group device
  /\ IsOn (fst (SetRepeat s n)) group device = IsOn s group device
  /\ IsOn (fst (SetProtocol s m)) group device = IsOn s group device
  /\ fst (SetRepeat (fst (SetProtocol s m)) n)
     = fst (SetProtocol (fst (SetRepeat s n)) m)
  /\ SetPin (fst (SetRepeat s n)) pin = fst (SetRepeat (SetPin s pin) n)
  /\ SetPin (fst (SetProtocol s m)) pin = fst (SetProtocol (SetPin s pin) m).
Proof.
  unfold SetPin, SetRepeat, SetProtocol, IsOn.
  destruct (n <=? 0);
    destruct ((m <=? 0) || (Z.of_nat (length protocols) <? m));
    try destruct (protocols !! Z.to_nat (m - 1)); repeat split.
Qed.

(** ** The test program *)

(** X18: [main] exits with 0 exactly when it has three arguments, the host
    initialises, the pin exists and group and device have 5 bytes each (it
    panics if only the pin is missing, and exits with 1 otherwise); the
    status sent is on only for the third argument "1"; it transmits only
    when it exits with 0, and then writes the pin at most 500 times. *)
Theorem main_outcome (args : list string) (hostInit : option error)
        (pin : option PinIO) :
  let group := nth 0 args "" in
  let device := nth 1 args "" in
  let status := (nth 2 args "" =? "1")%string in
  let accepted := (Z.of_nat (length args) =? 3) && isNil hostInit
                  && (len group =? 5) && (len device =? 5) in
  fst (main args hostInit pin)
  = (if accepted then match pin with Some _ => Exit 0 | None => Panic end
     else Exit 1)
  /\ snd (main args hostInit pin)
     = match pin, getCodeWord "" group device status with
       | Some p, Ok code =>
         if accepted then sendTriState (NewRCSwitch p) code else []
       | _, _ => []
       end
  /\ Z.of_nat (pinWrites (snd (main args hostInit pin))) <= 500.
Proof.
  intros group device status accepted.
  pose proof (isOk_getCodeWord_empty_family group device status) as A.
  assert (M : main args hostInit pin
              = if negb (Z.of_nat (length args) =? 3) then (Exit 1, [])
                else match hostInit with
                     | Some _ => (Exit 1, [])
                     | None =>
                       match pin, getCodeWord "" group device status with
                       | Some p, Ok code =>
                         (Exit 0, sendTriState (NewRCSwitch p) code)
                       | Some p, Err _ => (Exit 1, [])
                       | None, Ok _ => (Panic, [])
                       | None, Err _ => (Exit 1, [])
                       end
                     end).
  { unfold main. fold group device status.
    destruct (negb (Z.of_nat (length args) =? 3)); [reflexivity|].
    destruct hostInit; [reflexivity|]. destruct pin as [p|]; [|reflexivity].
    rewrite Switch_result.
    destruct (getCodeWord "" group device status); reflexivity. }
  rewrite M. subst accepted.
  destruct (Z.of_nat (length args) =? 3); cbn [negb andb];
    [|repeat split; destruct pin;
      try destruct (getCodeWord "" group device status); reflexivity || (cbn; lia)].
  destruct hostInit as [e|]; cbn [isNil andb];
    [repeat split; destruct pin;
     try destruct (getCodeWord "" group device status);
     reflexivity || (cbn; lia)|].
  rewrite <- A.
  destruct (getCodeWord "" group device status) as [code|e] eqn:E;
    cbn [isOk]; destruct pin as [p|]; cbn [fst snd];
    repeat split; try (cbn; lia).
  destruct (getCodeWord_Ok_shape _ _ _ _ _ E) as [T L].
  rewrite (pinWrites_sendTriState (NewRCSwitch p) code T);
    [|discriminate].
  change (s_nrRepeat (NewRCSwitch p)) with 10. lia.
Qed.

(** ** On and off, and the way back from waveforms *)

Lemma append_neq_tail (a b c : string) : b <> c -> len b = len c ->
  a +:+ b <> a +:+ c.
Proof.
  intros N L E. apply append_inj_len in E; [|reflexivity]. now destruct E.
Qed.

(** X19: whenever a command is accepted, its on and off codewords have the
    same length and are different. *)
Theorem on_off_codewords_differ (family group device on off : string) :
  getCodeWord family group device true = Ok on ->
  getCodeWord family group device false = Ok off ->
  len on = len off /\ on <> off.
Proof.
  unfold getCodeWord.
  destruct (negb (family =? "")%string).
  { intros H H'.
    destruct (getCodeWordC_Ok_inv _ _ _ _ _ H)
      as (v & g & d & P & _ & G & _ & D & _ & ->).
    destruct (getCodeWordC_Ok_inv _ _ _ _ _ H')
      as (v' & g' & d' & P' & _ & G' & _ & D' & _ & ->).
    rewrite P in P'. rewrite G in G'. rewrite D in D'.
    inversion P'. inversion G'. inversion D'. subst v' g' d'.
    rewrite <- !append_assoc. split.
    - now rewrite !(len_append _ "F"), !(len_append _ "0").
    - now apply append_neq_tail. }
  destruct ((1 <? len group) && (1 <? len device)).
  { intros H H'.
    assert (L : len group = 5 /\ len device = 5).
    { unfold getCodeWordA in H.
      destruct (len group =? 5) eqn:G; [|discriminate].
      destruct (len device =? 5) eqn:D; [|discriminate]. lia. }
    destruct L as [G D].
    destruct (getCodeWordA_runes group device true G D) as [_ E].
    destruct (getCodeWordA_runes group device false G D) as [_ E'].
    rewrite E in H. rewrite E' in H'. inversion H. inversion H'. split.
    - now rewrite !len_append.
    - now apply append_neq_tail. }
  destruct ((len group =? 1) && (len device =? 1)); [|discriminate].
  destruct (strconv.Atoi device) as [d [e|]]; [discriminate|].
  destruct (strconv.Atoi group) as [g [e|]].
  - intros H H'. destruct (getCodeWordB_Ok_range _ _ _ _ H) as [Hg Hd].
    destruct Hg as [->|[->|[->| ->]]]; destruct Hd as [->|[->|[->| ->]]];
      inversion H; inversion H'; split; (reflexivity || discriminate).
  - intros H H'.
    destruct (getCodeWordD_Ok_inv _ _ _ _ H) as (_ & _ & ->).
    destruct (getCodeWordD_Ok_inv _ _ _ _ H') as (_ & _ & ->).
    rewrite <- !append_assoc. split.
    + now rewrite !(len_append _ "10"), !(len_append _ "01").
    + now apply append_neq_tail.
Qed.

Lemma on_off_codewords_differ_witness :
  len "00F000FFFF0F" = len "00F000FFFFF0" /\ "00F000FFFF0F" <> "00F000FFFFF0".
Proof.
  apply (on_off_codewords_differ "" "11011" "10000"); reflexivity.
Defined.

Lemma expand_spec_inj (a b : string) :
  isTriState a = true -> isTriState b = true ->
  expand_spec a = expand_spec b -> a = b.
Proof.
  revert b. induction a as [|x a IH]; intros [|y b] A B E.
  - reflexivity.
  - exfalso. cbn [isTriState] in B. apply andb_true_iff in B.
    destruct B as [By Bb]. pose proof (len_expand_spec b Bb) as L.
    cbn [expand_spec] in E. apply (f_equal len) in E.
    rewrite len_append, L in E. pose proof (len_nonneg b).
    change (len "") with 0 in E. unfold r0, r1, rF in *.
    destruct (byteZ y =? 48); [change (len "00") with 2 in E; lia|].
    destruct (byteZ y =? 49); [change (len "11") with 2 in E; lia|].
    destruct (byteZ y =? 70); [change (len "01") with 2 in E; lia|].
    discriminate.
  - exfalso. cbn [isTriState] in A. apply andb_true_iff in A.
    destruct A as [Ax Aa]. pose proof (len_expand_spec a Aa) as L.
    cbn [expand_spec] in E. apply (f_equal len) in E.
    rewrite len_append, L in E. pose proof (len_nonneg a).
    change (len "") with 0 in E. unfold r0, r1, rF in *.
    destruct (byteZ x =? 48); [change (len "00") with 2 in E; lia|].
    destruct (byteZ x =? 49); [change (len "11") with 2 in E; lia|].
    destruct (byteZ x =? 70); [change (len "01") with 2 in E; lia|].
    discriminate.
  - cbn [isTriState] in A, B. apply andb_true_iff in A, B.
    destruct A as [Ax Aa], B as [By Bb]. cbn [expand_spec] in E.
    apply append_inj_len in E.
    + destruct E as [E1 E2]. f_equal; [|now apply IH].
      apply byteZ_inj. unfold r0, r1, rF in *.
      destruct (Z.eqb_spec (byteZ x) 48); destruct (Z.eqb_spec (byteZ y) 48);
        destruct (Z.eqb_spec (byteZ x) 49); destruct (Z.eqb_spec (byteZ y) 49);
        destruct (Z.eqb_spec (byteZ x) 70); destruct (Z.eqb_spec (byteZ y) 70);
        try discriminate; lia.
    + unfold r0, r1, rF in *.
      destruct (byteZ x =? 48); destruct (byteZ y =? 48);
        destruct (byteZ x =? 49); destruct (byteZ y =? 49);
        destruct (byteZ x =? 70); destruct (byteZ y =? 70);
        try reflexivity; discriminate.
Qed.

Lemma compile_spec_inj (a b : string) (prot : protocol) :
  oneBit prot <> zeroBit prot ->
  isBinary a = true -> isBinary b = true ->
  compile_spec a prot = compile_spec b prot -> a = b.
Proof.
  intros N A B E. unfold compile_spec in E. apply app_inj_tail in E.
  destruct E as [E _]. revert b A B E.
  induction a as [|x a IH]; intros [|y b] A B E;
    try reflexivity; try discriminate.
  cbn [isBinary] in A, B. apply andb_true_iff in A, B.
  destruct A as [Ax Aa], B as [By Bb].
  cbn [list_ascii_of_string map] in E. inversion E as [[E1 E2]].
  f_equal; [|now apply IH]. apply byteZ_inj. unfold r0, r1 in *.
  destruct (Z.eqb_spec (byteZ x) 49); destruct (Z.eqb_spec (byteZ y) 49);
    try congruence; lia.
Qed.

Lemma protocols_distinct_bits (p : protocol) :
  In p protocols -> oneBit p <> zeroBit p.
Proof.
  intros [<-|[<-|[<-|[<-|[<-|[<-|[]]]]]]]; discriminate.
Qed.

(** X20: under each of the six protocols the waveform sequence determines
    the codeword: two codewords over 0, 1, F that expand and compile to the
    same waveforms are the same codeword. *)
Theorem waveforms_determine_codeword (a b : string) (prot : protocol) :
  In prot protocols -> isTriState a = true -> isTriState b = true ->
  binaryToWaveForm (triStateToBinary a) prot
  = binaryToWaveForm (triStateToBinary b) prot ->
  a = b.
Proof.
  intros P A B E.
  rewrite (triStateToBinary_expand_spec a (isTriState_isASCII a A)) in E.
  rewrite (triStateToBinary_expand_spec b (isTriState_isASCII b B)) in E.
  rewrite !binaryToWaveForm_compile_spec in E
    by apply isBinary_isASCII, expand_spec_isBinary.
  apply compile_spec_inj in E;
    [| now apply protocols_distinct_bits
     | apply expand_spec_isBinary | apply expand_spec_isBinary].
  now apply expand_spec_inj.
Qed.

Lemma waveforms_determine_codeword_witness : "0F1" = "0F1".
Proof.
  apply (waveforms_determine_codeword "0F1" "0F1" (mkProtocol 350 (mkWaveform 1 31) (mkWaveform 1 3) (mkWaveform 3 1) false));
    [left; reflexivity | reflexivity | reflexivity | reflexivity].
Defined.

(** X21: a command that is accepted transmits the same events whatever
    states are recorded, and repeating it transmits them again and leaves
    the object as the first call left it. *)
Theorem Switch_repeat (s : RCSwitch) (family group device : string)
        (status : bool) :
  let call := fun s => if status then SwitchOn s family group device
                       else SwitchOff s family group device in
  snd (call s) = None ->
  call (fst (fst (call s))) = (fst (fst (call s)), snd (fst (call s)), None).
Proof.
  intros call H. subst call. cbv beta in *. rewrite !Switch_result in *.
  destruct (getCodeWord family group device status) as [code|e];
    [|discriminate]. cbn [fst snd].
  unfold setIsOn, sendTriState, send. cbn [s_pin s_protocol s_nrRepeat s_isOn].
  now rewrite insert_insert_eq.
Qed.

Lemma Switch_repeat_witness :
  let s := NewRCSwitch (ByNumber 17) in
  let call := fun s => SwitchOn s "" "11011" "10000" in
  call (fst (fst (call s))) = (fst (fst (call s)), snd (fst (call s)), None).
Proof.
  intros s. apply (Switch_repeat s "" "11011" "10000" true). reflexivity.
Defined.
